(** * Job Application Assistant: a shallow embedding of [new.py]

    The development embeds the logic of the [JobTracker] class and of the
    chat turn loop: the message classifier, the extraction of a job record
    from the language-model response, the add and remove paths over the
    spreadsheet, and the dispatch of one chat turn.

    Modelling choices.
    - Python [str] values are lists of 8-bit characters read as ASCII text;
      [lower], [title], [strip] and the regular-expression classes are the
      Python ones on the ASCII range, characters above 127 are caseless and
      are not white space.
    - The two [re.search] calls are run by a small backtracking matcher for
      sequences of quantified character classes, which has the priorities of
      Python's engine (leftmost start, greedy before shorter, lazy before
      longer).
    - Exceptions are values: a computation returns [Ok] or [Raise], and
      [try_except] is written where the source has [try/except].
    - The spreadsheet is a grid of text cells with the four operations the
      program calls ([row_values], [get_all_records], [append_row],
      [delete_rows]); every call is logged and may fail, as decided by a
      schedule of outages carried by the world. The grid holds the rows
      as the service returns them, each without the empty cells at its end.
      [get_all_records] is the one of gspread: it fills the rows to one
      width, refuses a header row in which a name is then repeated, and a
      cell whose text reads as a number comes back as a number, on which
      [lower] raises and which is equal to no text.
    - [json.loads], the clock and the language model are external and are
      fields of an environment record. *)

From Stdlib Require Import Ascii String.
From Stdlib Require Decimal DecimalString.
From Stdlib Require Import List Bool Arith Lia Sorted.
Import ListNotations.

(** ** Text *)

Definition str := list ascii.

(** A Python string literal. *)
Definition py (s : string) : str := list_ascii_of_string s.

Definition newline : ascii := ascii_of_nat 10.
Definition dquote : ascii := ascii_of_nat 34.

Definition str_eqb (a b : str) : bool :=
  if list_eq_dec ascii_dec a b then true else false.

Definition code (c : ascii) : nat := nat_of_ascii c.

Definition is_upper (c : ascii) : bool := (65 <=? code c) && (code c <=? 90).
Definition is_lower (c : ascii) : bool := (97 <=? code c) && (code c <=? 122).
Definition is_cased (c : ascii) : bool := is_upper c || is_lower c.

(** [str.isspace] on one character: tab to carriage return, the four
    separators 28 to 31, and the space. *)
Definition isspace (c : ascii) : bool :=
  ((9 <=? code c) && (code c <=? 13)) ||
  ((28 <=? code c) && (code c <=? 31)) ||
  (code c =? 32).

Definition lower_char (c : ascii) : ascii :=
  if is_upper c then ascii_of_nat (code c + 32) else c.

Definition upper_char (c : ascii) : ascii :=
  if is_lower c then ascii_of_nat (code c - 32) else c.

(** [s.lower()] *)
Definition lower (s : str) : str := map lower_char s.

(** [s.title()]: a cased character is upper-cased after an uncased one and
    lower-cased after a cased one. *)
Fixpoint title_from (previous_is_cased : bool) (s : str) : str :=
  match s with
  | [] => []
  | c :: s' =>
      (if previous_is_cased then lower_char c else upper_char c)
        :: title_from (is_cased c) s'
  end.

Definition title (s : str) : str := title_from false s.

Fixpoint lstrip (s : str) : str :=
  match s with
  | [] => []
  | c :: s' => if isspace c then lstrip s' else s
  end.

Definition rstrip (s : str) : str := rev (lstrip (rev s)).

(** [s.strip()] *)
Definition strip (s : str) : str := rstrip (lstrip s).

Fixpoint startswith (p s : str) : bool :=
  match p, s with
  | [], _ => true
  | _ :: _, [] => false
  | a :: p', b :: s' => Ascii.eqb a b && startswith p' s'
  end.

(** [p in s] for two strings. *)
Fixpoint contains (p s : str) : bool :=
  startswith p s ||
  match s with
  | [] => false
  | _ :: s' => contains p s'
  end.

Definition is_digit (c : ascii) : bool := (48 <=? code c) && (code c <=? 57).

Fixpoint scan_digits (s : str) : str * str :=
  match s with
  | [] => ([], [])
  | c :: s' =>
      if is_digit c then let (d, r) := scan_digits s' in (c :: d, r)
      else ([], s)
  end.

Definition nonempty (s : str) : bool :=
  match s with
  | [] => false
  | _ :: _ => true
  end.

Definition is_sign (c : ascii) : bool :=
  Ascii.eqb c "+"%char || Ascii.eqb c "-"%char.

Definition unsigned (s : str) : str :=
  match s with
  | c :: s' => if is_sign c then s' else s
  | [] => []
  end.

Definition all_digits (s : str) : bool := nonempty s && forallb is_digit s.

(** The white space that [int] and [float] skip around a number. *)
Definition number_space (c : ascii) : bool :=
  ((9 <=? code c) && (code c <=? 13)) || (code c =? 32).

Fixpoint ltrim (s : str) : str :=
  match s with
  | [] => []
  | c :: s' => if number_space c then ltrim s' else s
  end.

Definition trim (s : str) : str := rev (ltrim (rev (ltrim s))).

(** [int(s)] returns: white space around, a sign, digits. *)
Definition int_looking (s : str) : bool := all_digits (unsigned (trim s)).

(** The exponent of a float literal, or nothing. *)
Definition exponent_ok (s : str) : bool :=
  match s with
  | [] => true
  | c :: s' =>
      (Ascii.eqb c "e"%char || Ascii.eqb c "E"%char)
      && all_digits (unsigned s')
  end.

(** [float(s)] returns: white space around, a sign, then inf, infinity or
    nan in any case, or digits with an optional point and exponent. *)
Definition float_looking (s : str) : bool :=
  let u := unsigned (trim s) in
  existsb (str_eqb (lower u)) (map py ["inf"; "infinity"; "nan"]%string)
  || let (d1, r1) := scan_digits u in
     match r1 with
     | c :: r2 =>
         if Ascii.eqb c "."%char then
           let (d2, r3) := scan_digits r2 in
           (nonempty d1 || nonempty d2) && exponent_ok r3
         else nonempty d1 && exponent_ok r1
     | [] => nonempty d1
     end.

(** [str(n)] for a natural number. *)
Definition str_of_nat (n : nat) : str :=
  py (DecimalString.NilZero.string_of_uint (Nat.to_uint n)).

(** ** Regular expressions

    The patterns of the program are sequences of single character classes,
    each taken once or under a quantifier, with one capture group. *)

Inductive cclass : Type :=
| Lit (c : ascii)      (* a literal character *)
| Space                (* \s *)
| Dot.                 (* . *)

Inductive quant : Type :=
| Once
| PlusGreedy           (* + *)
| PlusLazy             (* +? *)
| StarLazy.            (* *? *)

Record atom : Type := Atom {
  a_class : cclass;
  a_quant : quant;
  a_group : bool       (* inside the capture group *)
}.

Record flags : Type := Flags {
  IGNORECASE : bool;
  DOTALL : bool
}.

Definition class_ok (f : flags) (k : cclass) (c : ascii) : bool :=
  match k with
  | Lit p =>
      if IGNORECASE f then Ascii.eqb (lower_char c) (lower_char p)
      else Ascii.eqb c p
  | Space => isspace c
  | Dot => DOTALL f || negb (Ascii.eqb c newline)
  end.

Definition orelse {A} (x y : option A) : option A :=
  match x with
  | Some _ => x
  | None => y
  end.

Definition keep (grp : bool) (c : ascii) (r : option str) : option str :=
  if grp then option_map (cons c) r else r.

(** One or more characters of a class, then the continuation [k]; the
    quantifier fixes which alternative is tried first. The result is the
    text of the capture group. *)
Fixpoint repeat1 (ok : ascii -> bool) (q : quant) (grp : bool)
         (k : str -> option str) (s : str) : option str :=
  match s with
  | [] => None
  | c :: s' =>
      if ok c then
        keep grp c
          match q with
          | Once => k s'
          | PlusGreedy => orelse (repeat1 ok q grp k s') (k s')
          | PlusLazy | StarLazy => orelse (k s') (repeat1 ok q grp k s')
          end
      else None
  end.

Definition match_atom (f : flags) (a : atom) (k : str -> option str)
           (s : str) : option str :=
  match a_quant a with
  | StarLazy =>
      orelse (k s) (repeat1 (class_ok f (a_class a)) StarLazy (a_group a) k s)
  | q => repeat1 (class_ok f (a_class a)) q (a_group a) k s
  end.

(** Match the pattern at the start of [s]. *)
Fixpoint match_here (f : flags) (p : list atom) : str -> option str :=
  match p with
  | [] => fun _ => Some []
  | a :: p' => match_atom f a (match_here f p')
  end.

(** [re.search(p, s, flags)]: the first start position with a match; the
    result is [group(1)] of that match. *)
Fixpoint re_search (f : flags) (p : list atom) (s : str) : option str :=
  match match_here f p s with
  | Some g => Some g
  | None =>
      match s with
      | [] => None
      | _ :: s' => re_search f p s'
      end
  end.

Definition lits (l : str) : list atom :=
  map (fun c => Atom (Lit c) Once false) l.

(** r'remove\s+(.+?)\s+row' *)
Definition remove_pattern : list atom :=
  lits (py "remove")
    ++ [Atom Space PlusGreedy false; Atom Dot PlusLazy true;
        Atom Space PlusGreedy false]
    ++ lits (py "row").

Definition remove_flags : flags := Flags true false.

(** r'```json\n(.*?)\n```' *)
Definition json_pattern : list atom :=
  lits (py "```json" ++ [newline])
    ++ [Atom Dot StarLazy true]
    ++ lits (newline :: py "```").

Definition json_flags : flags := Flags false true.

(** ** Classifier *)

(** The three results of [is_job_application]: ['remove'], ['application']
    and [None]. *)
Inductive message_type : Type :=
| Remove
| Application
| Conversation.

Definition job_keywords : list str :=
  map py ["applied"; "application"; "applying"; "job"; "position";
          "role"; "interview"; "company"; "submitted"; "sent resume"]%string.

Definition is_job_application (text : str) : message_type :=
  match re_search remove_flags remove_pattern text with
  | Some _ => Remove
  | None =>
      if existsb (fun keyword => contains keyword (lower text)) job_keywords
      then Application
      else Conversation
  end.


(** ** Exceptions and the world *)

Inductive exn : Type :=
| JSONDecodeError (msg : str)
| AttributeError (msg : str)
| APIError (msg : str)         (* a spreadsheet call that failed *)
| GSpreadException (msg : str) (* a sheet the library refuses to read *)
| ModelError (msg : str).      (* a completion call that failed *)

(** [str(e)] *)
Definition str_of_exn (e : exn) : str :=
  match e with
  | JSONDecodeError m | AttributeError m | APIError m | GSpreadException m
  | ModelError m => m
  end.

Inductive outcome (A : Type) : Type :=
| Ok (a : A)
| Raise (e : exn).
Arguments Ok {A} a.
Arguments Raise {A} e.

(** The [details] dictionary, with its five fixed keys. *)
Record Details : Type := MkDetails {
  Company_Name : str;
  Role : str;
  Date : str;
  Platform : str;
  Accept : str
}.

(** One entry of [st.session_state.messages]; [job_details] is the optional
    third key. *)
Record Message : Type := MkMessage {
  role : str;
  content : str;
  job_details : option Details
}.

(** The calls made to the worksheet. *)
Inductive call : Type :=
| RowValues (row : nat)
| GetAllRecords
| AppendRow (values : list str)
| DeleteRows (index : nat).

(** The mutable state around the tracker: the chat history, the rows of the
    worksheet (row 1 first), the outcome scheduled for each coming worksheet
    call ([Some msg] is a failure) and the log of the calls made. *)
Record World : Type := MkWorld {
  messages : list Message;
  grid : list (list str);
  outages : list (option str);
  calls : list call
}.

Definition M (A : Type) : Type := World -> outcome A * World.

Definition ret {A} (a : A) : M A := fun w => (Ok a, w).

Definition raise {A} (e : exn) : M A := fun w => (Raise e, w).

Definition bind {A B} (m : M A) (k : A -> M B) : M B :=
  fun w =>
    match m w with
    | (Ok a, w') => k a w'
    | (Raise e, w') => (Raise e, w')
    end.

Notation "x <- m ;; k" := (bind m (fun x => k))
  (at level 61, m at next level, right associativity).
Notation "' p <- m ;; k" := (bind m (fun x => let p := x in k))
  (at level 61, p pattern, m at next level, right associativity).
Notation "m ;;; k" := (bind m (fun _ => k))
  (at level 61, right associativity).

(** [try: body except <classes>: handler]. The effects the body had before
    it raised stay. *)
Definition try_except {A} (body : M A) (catches : exn -> bool)
           (handler : exn -> M A) : M A :=
  fun w =>
    match body w with
    | (Raise e, w') => if catches e then handler e w' else (Raise e, w')
    | r => r
    end.

(** [except Exception] *)
Definition Exception (e : exn) : bool := true.

(** [except json.JSONDecodeError] *)
Definition is_JSONDecodeError (e : exn) : bool :=
  match e with
  | JSONDecodeError _ => true
  | _ => false
  end.

(** *** Dictionaries with text keys, in insertion order *)

Fixpoint dict_get {V} (k : str) (d : list (str * V)) : option V :=
  match d with
  | [] => None
  | (k', v) :: d' => if str_eqb k k' then Some v else dict_get k d'
  end.

(** [d[k] = v] *)
Fixpoint dict_set {V} (k : str) (v : V) (d : list (str * V))
  : list (str * V) :=
  match d with
  | [] => [(k, v)]
  | (k', v') :: d' =>
      if str_eqb k k' then (k, v) :: d' else (k', v') :: dict_set k v d'
  end.

(** [dict(items)] *)
Definition dict_of {V} (items : list (str * V)) : list (str * V) :=
  fold_left (fun d kv => dict_set (fst kv) (snd kv) d) items [].

(** *** The worksheet *)

(** Every worksheet call is logged and takes the next scheduled outcome. *)
Definition logged (c : call) (w : World) : World :=
  MkWorld (messages w) (grid w) (tl (outages w)) (calls w ++ [c]).

Definition request (c : call) : M unit :=
  fun w =>
    match outages w with
    | Some msg :: _ => (Raise (APIError msg), logged c w)
    | _ => (Ok tt, logged c w)
    end.

Definition set_grid (g : list (list str)) (w : World) : World :=
  MkWorld (messages w) g (outages w) (calls w).

Definition read_grid : M (list (list str)) := fun w => (Ok (grid w), w).

Definition write_grid (g : list (list str)) : M unit :=
  fun w => (Ok tt, set_grid g w).

(** [sheet.row_values(n)], rows counted from 1 *)
Definition row_values (n : nat) : M (list str) :=
  request (RowValues n) ;;;
  g <- read_grid ;;
  ret (nth (n - 1) g []).

Definition pad (n : nat) (row : list str) : list str :=
  row ++ repeat [] (n - length row).

(** A value of a record: the text of the cell, or a number. *)
Inductive cell : Type :=
| Text (s : str)
| Number (literal : str).

(** The text reads as a number for gspread: no underscore, and [int] or
    [float] accepts it. *)
Definition numeric (value : str) : bool :=
  negb (contains (py "_") value)
  && (int_looking value || float_looking value).

(** [numericise(value)] *)
Definition numericise (value : str) : cell :=
  if numeric value then Number value else Text value.

(** [type(v).__name__] for a number *)
Definition number_type (literal : str) : str :=
  if int_looking literal then py "int" else py "float".

Definition record : Type := list (str * cell).

Definition record_of (keys row : list str) : record :=
  dict_of (combine keys (map numericise (pad (length keys) row))).

(** The names of the header row are pairwise distinct. *)
Fixpoint unique (keys : list str) : bool :=
  match keys with
  | [] => true
  | k :: keys' => negb (existsb (str_eqb k) keys') && unique keys'
  end.

(** The number of cells of the widest row. *)
Definition width (g : list (list str)) : nat :=
  fold_right (fun row n => Nat.max (length row) n) 0 g.

(** The keys of the records. The library fills every row, row 1 included,
    with empty cells up to the widest row: a column that only data rows
    reach has the empty name. *)
Definition keys_of (g : list (list str)) : list str :=
  pad (width g) (hd [] g).

(** The records of a grid: every row after row 1 is a dictionary from key
    to cell. *)
Definition all_records (g : list (list str)) : list record :=
  map (record_of (keys_of g)) (tl g).

(** [sheet.get_all_records()]; a repeated key is an error, whose wording
    varies with the version of the library. *)
Definition get_all_records : M (list record) :=
  request GetAllRecords ;;;
  g <- read_grid ;;
  if unique (keys_of g) then ret (all_records g)
  else raise (GSpreadException
                (py "the header row in the sheet is not unique")).

(** [sheet.append_row(values)] *)
Definition append_row (values : list str) : M unit :=
  request (AppendRow values) ;;;
  g <- read_grid ;;
  write_grid (g ++ [values]).

Fixpoint remove_nth {A} (n : nat) (l : list A) : list A :=
  match n, l with
  | _, [] => []
  | 0, _ :: l' => l'
  | S n', x :: l' => x :: remove_nth n' l'
  end.

(** [sheet.delete_rows(index)], rows counted from 1; a row below the data
    is blank and its deletion leaves the data as it is. *)
Definition delete_rows (index : nat) : M unit :=
  request (DeleteRows index) ;;;
  g <- read_grid ;;
  match index with
  | 0 => raise (APIError (py "invalid row index"))
  | S i => write_grid (remove_nth i g)
  end.

(** *** The chat history *)

Definition get_messages : M (list Message) := fun w => (Ok (messages w), w).

Definition said (m : Message) (w : World) : World :=
  MkWorld (messages w ++ [m]) (grid w) (outages w) (calls w).

(** [st.session_state.messages.append(m)] *)
Definition append_message (m : Message) : M unit :=
  fun w => (Ok tt, said m w).

(** ** JSON values and the external services *)

#[warnings="-register-all"]
Inductive json : Type :=
| JNull
| JBool (b : bool)
| JNum (literal : str)
| JStr (s : str)
| JArr (items : list json)
| JObj (items : list (str * json)).

(** [type(v).__name__] *)
Definition type_name (v : json) : str :=
  match v with
  | JNull => py "NoneType"
  | JBool _ => py "bool"
  | JNum l =>
      if existsb (fun c => contains [c] l) (py ".eE") then py "float"
      else py "int"
  | JStr _ => py "str"
  | JArr _ => py "list"
  | JObj _ => py "dict"
  end.

Definition no_attribute {A} (v : json) (attr : string) : M A :=
  raise (AttributeError
           (py "'" ++ type_name v ++ py "' object has no attribute '"
               ++ py attr ++ py "'")).

(** [v.get(key, default)] *)
Definition get (v : json) (key : string) (default : json) : M json :=
  match v with
  | JObj d =>
      ret match dict_get (py key) d with
          | Some x => x
          | None => default
          end
  | _ => no_attribute v "get"
  end.

(** [v.strip()] *)
Definition strip_of (v : json) : M str :=
  match v with
  | JStr s => ret (strip s)
  | _ => no_attribute v "strip"
  end.

(** The collaborators the program reaches through library calls. *)
Record Env : Type := MkEnv {
  (** [json.loads]; [None] is a [JSONDecodeError] *)
  json_loads : str -> option json;
  (** [datetime.now().strftime('%Y-%m-%d')] *)
  today : str;
  (** [model.generate_content(prompt).text] *)
  generate_content : str -> outcome str
}.

Definition loads (env : Env) (s : str) : M json :=
  match json_loads env s with
  | Some v => ret v
  | None => raise (JSONDecodeError (py "Expecting value"))
  end.

Definition generate (env : Env) (prompt : str) : M str :=
  fun w => (generate_content env prompt, w).

(** ** The tracker *)

Inductive Worksheet : Type := sheet1.

Record JobTracker : Type := MkJobTracker {
  gemini_configured : bool;
  sheets_configured : bool;
  sheet : option Worksheet
}.

Definition concat_str (l : list str) : str := concat l.

(** [conversation_history[-6:]] *)
Definition last6 (history : list Message) : list Message :=
  skipn (length history - 6) history.

(** The lines added to a prompt for the recent history. *)
Definition history_lines (history : list Message) : str :=
  concat_str
    (map (fun msg => title (role msg) ++ py ": " ++ content msg ++ [newline])
         (last6 history)).

Definition empty_details : Details :=
  MkDetails [] [] [] [] (py "Pending").

Definition extraction_prompt (env : Env) (text : str)
           (conversation_history : list Message) : str :=
  concat_str
    [py "
You are a Job Application Assistant that extracts job application details from user input. The user has provided the following text: ";
     [dquote]; text; [dquote];
     py "

Extract the following details:
- Company Name
- Role
- Date (in YYYY-MM-DD format, use today's date "; today env;
     py " if not specified, convert 'today' or 'yesterday' appropriately)
- Platform (e.g., LinkedIn, Indeed, company website, etc.)
- Status (default to 'Pending' unless specified)

Return the details in JSON format. If any detail is missing or unclear, leave it as an empty string, except for Date (use today's date) and Status (use 'Pending'). If the input doesn't seem to be a job application, return empty details and indicate it's not a valid application.

Conversation history for context (last 6 messages):
";
     history_lines conversation_history;
     [newline]; py "Return: ```json"; [newline]; py "{}"; [newline]; py "```"].

Definition extract_job_details (env : Env) (self : JobTracker) (text : str)
           (conversation_history : list Message) : M (Details * bool * str) :=
  let details := empty_details in
  if negb (gemini_configured self) then
    ret (details, false, py "Gemini AI not configured")
  else
    try_except
      (let prompt := extraction_prompt env text conversation_history in
       response <- generate env prompt ;;
       let response_text := strip response in
       match re_search json_flags json_pattern response_text with
       | Some block =>
           try_except
             (extracted_details <- loads env block ;;
              v1 <- get extracted_details "Company Name" (JStr []) ;;
              s1 <- strip_of v1 ;;
              v2 <- get extracted_details "Role" (JStr []) ;;
              s2 <- strip_of v2 ;;
              v3 <- get extracted_details "Date" (JStr (today env)) ;;
              s3 <- strip_of v3 ;;
              v4 <- get extracted_details "Platform" (JStr []) ;;
              s4 <- strip_of v4 ;;
              v5 <- get extracted_details "Status" (JStr (py "Pending")) ;;
              s5 <- strip_of v5 ;;
              let details := MkDetails (title s1) (title s2) s3 (title s4) s5 in
              let is_valid :=
                nonempty (Company_Name details) && nonempty (Role details) in
              ret (details, is_valid, py "Successfully extracted details"))
             is_JSONDecodeError
             (fun _ => ret (details, false,
                            py "Failed to parse Gemini AI response"))
       | None =>
           ret (details, false, py "No valid job application details found")
       end)
      Exception
      (fun e => ret (details, false,
                     py "Error extracting details with Gemini AI: "
                        ++ str_of_exn e)).

Definition expected_headers : list str :=
  map py ["Company Name"; "Role"; "Date"; "Platform"; "Accept"]%string.

(** [h in headers] for a list of strings *)
Definition mem (h : str) (headers : list str) : bool :=
  existsb (str_eqb h) headers.

(** [record.get(key, '')] *)
Definition get_or_empty (r : record) (key : string) : cell :=
  match dict_get (py key) r with
  | Some v => v
  | None => Text []
  end.

(** [v.lower()] on a value of a record: a number has no such method. *)
Definition lower_of (v : cell) : M str :=
  match v with
  | Text s => ret (lower s)
  | Number n =>
      raise (AttributeError
               (py "'" ++ number_type n
                   ++ py "' object has no attribute 'lower'"))
  end.

(** [record.get('Date') == date]: no default, and a number equals no
    text. *)
Definition date_is (r : record) (date : str) : bool :=
  match dict_get (py "Date") r with
  | Some (Text d) => str_eqb d date
  | _ => false
  end.

(** The test of the duplicate loop, its three parts taken from left to
    right as [and] does. *)
Definition duplicate_test (details : Details) (r : record) : M bool :=
  c <- lower_of (get_or_empty r "Company Name") ;;
  if str_eqb c (lower (Company_Name details)) then
    o <- lower_of (get_or_empty r "Role") ;;
    ret (str_eqb o (lower (Role details)) && date_is r (Date details))
  else ret false.

(** The loop over the records, left at the first duplicate. *)
Fixpoint find_duplicate (details : Details) (records : list record)
  : M bool :=
  match records with
  | [] => ret false
  | r :: rest =>
      found <- duplicate_test details r ;;
      if found : bool then ret true else find_duplicate details rest
  end.

Definition not_configured : bool * str :=
  (false,
   py "Google Sheets not configured. Please check your secrets and sheet permissions.").

Definition unconfigured (self : JobTracker) : bool :=
  negb (sheets_configured self)
  || match sheet self with
     | Some _ => false
     | None => true
     end.

Definition add_to_sheet (self : JobTracker) (details : Details)
  : M (bool * str) :=
  if unconfigured self then ret not_configured
  else
    try_except
      (headers <- row_values 1 ;;
       if negb (forallb (fun h => mem h headers) expected_headers) then
         ret (false,
              py "Invalid sheet structure. Ensure columns are: Company Name, Role, Date, Platform, Accept")
       else
         records <- get_all_records ;;
         found <- find_duplicate details records ;;
         if found : bool then
           ret (false, py "This job application already exists")
         else
           let row_data :=
             [Company_Name details; Role details; Date details;
              Platform details; Accept details] in
           append_row row_data ;;;
           ret (true, py "Successfully added to your job tracker!"))
      Exception
      (fun e =>
         ret (false,
              py "Error saving to sheet: " ++ str_of_exn e
                 ++ py ". Ensure the service account has edit permissions.")).

(** The test of the removal loop. *)
Definition company_test (company_name : str) (r : record) : M bool :=
  c <- lower_of (get_or_empty r "Company Name") ;;
  ret (str_eqb c (lower company_name)).

(** The loop over [enumerate(records, start)] that collects the indices of
    the matching records. *)
Fixpoint scan_rows (company_name : str) (start : nat)
         (records : list record) : M (list nat) :=
  match records with
  | [] => ret []
  | r :: rest =>
      hit <- company_test company_name r ;;
      l <- scan_rows company_name (S start) rest ;;
      ret (if hit : bool then start :: l else l)
  end.

Fixpoint insert_desc (x : nat) (l : list nat) : list nat :=
  match l with
  | [] => [x]
  | y :: l' => if y <? x then x :: l else y :: insert_desc x l'
  end.

(** [sorted(l, reverse=True)] *)
Definition sorted_reverse (l : list nat) : list nat :=
  fold_right insert_desc [] l.

(** [for x in l: body(x)] *)
Fixpoint for_each {A} (l : list A) (body : A -> M unit) : M unit :=
  match l with
  | [] => ret tt
  | x :: l' => body x ;;; for_each l' body
  end.

Definition remove_from_sheet (self : JobTracker) (company_name : str)
  : M (bool * str) :=
  if unconfigured self then ret not_configured
  else
    try_except
      (records <- get_all_records ;;
       rows_to_delete <- scan_rows company_name 2 records ;;
       match rows_to_delete with
       | _ :: _ =>
           for_each (sorted_reverse rows_to_delete) delete_rows ;;;
           ret (true,
                py "Successfully removed "
                   ++ str_of_nat (length rows_to_delete)
                   ++ py " application(s) for " ++ title company_name
                   ++ py " from your job tracker!")
       | [] =>
           ret (false,
                py "No application found for " ++ title company_name
                   ++ py " in your job tracker.")
       end)
      Exception
      (fun e =>
         ret (false,
              py "Error removing from sheet: " ++ str_of_exn e
                 ++ py ". Ensure the service account has edit permissions.")).

Definition persona : str :=
  py "You are a Job Application Assistant developed by Soham. You help users track their job applications in a friendly, conversational way.

Your main functions:
1. Help users log their job applications (details are handled separately)
2. Provide encouragement and support during their job search
3. Answer questions about job searching and applications
4. Maintain a positive, helpful attitude

When users mention job applications, acknowledge their effort and let them know you're tracking it.

Conversation history:
".

Definition get_ai_response (env : Env) (self : JobTracker) (prompt : str)
           (conversation_history : list Message) : M str :=
  if negb (gemini_configured self) then
    ret (py "I'm having trouble connecting to my AI service. Please check the GEMINI_API_KEY in your secrets.")
  else
    try_except
      (let context := persona ++ history_lines conversation_history in
       let full_prompt :=
         context ++ [newline] ++ py "User: " ++ prompt ++ [newline]
                 ++ py "Assistant:" in
       generate env full_prompt)
      Exception
      (fun e =>
         ret (py "I'm having some technical difficulties right now. Error: "
                 ++ str_of_exn e)).

(** ** The turn loop *)

Definition user (text : str) : Message := MkMessage (py "user") text None.

Definition assistant (text : str) (details : option Details) : Message :=
  MkMessage (py "assistant") text details.

Definition recorded (sheet_message : str) : str :=
  py "Great! I've recorded your job application. " ++ sheet_message
     ++ py " 🎉" ++ [newline; newline]
     ++ py "Keep up the great work with your job search! 💪".

Definition not_saved (sheet_message : str) : str :=
  py "I see you applied for a job! However, there was an issue saving it: "
     ++ sheet_message ++ [newline; newline]
     ++ py "But don't worry, I've still noted your application effort! 👍".

Definition clarify (extraction_message : str) : str :=
  py "I couldn't extract enough details from your input: "
     ++ extraction_message
     ++ py ". Could you clarify? For example: 'I applied for a Software Engineer role at Google yesterday via LinkedIn'".

Definition usage_hint : str :=
  py "Please specify the company name to remove, like: 'remove Google row'".

(** The body of [if prompt := st.chat_input(...)], without the rendering. *)
Definition turn (env : Env) (job_tracker : JobTracker) (prompt : str)
  : M unit :=
  append_message (user prompt) ;;;
  match is_job_application prompt with
  | Application =>
      history <- get_messages ;;
      r <- extract_job_details env job_tracker prompt history ;;
      let '(job_details, is_valid, extraction_message) := r in
      if is_valid : bool then
        r <- add_to_sheet job_tracker job_details ;;
        let '(success, sheet_message) := r in
        if success : bool then
          append_message (assistant (recorded sheet_message) (Some job_details))
        else
          append_message (assistant (not_saved sheet_message) None)
      else
        append_message (assistant (clarify extraction_message) None)
  | Remove =>
      match re_search remove_flags remove_pattern prompt with
      | Some g =>
          let company_name := strip g in
          r <- remove_from_sheet job_tracker company_name ;;
          let '(success, message) := r in
          append_message (assistant message None)
      | None => append_message (assistant usage_hint None)
      end
  | Conversation =>
      history <- get_messages ;;
      response <- get_ai_response env job_tracker prompt history ;;
      append_message (assistant response None)
  end.

(** ** A reference parser for a fragment of JSON

    [json.loads] is external and stays a field of the environment. The
    examples instantiate it with this parser of one flat object whose values
    are strings without escapes, integers, [true], [false] or [null]; on
    such a text it returns the dictionary [json.loads] returns, and it
    rejects every other text. *)

Definition json_ws (c : ascii) : bool :=
  (code c =? 32) || (code c =? 9) || (code c =? 10) || (code c =? 13).

Fixpoint skip_ws (s : str) : str :=
  match s with
  | [] => []
  | c :: s' => if json_ws c then skip_ws s' else s
  end.

(** The text of a string, read after its opening quote. *)
Fixpoint scan_string (s : str) : option (str * str) :=
  match s with
  | [] => None
  | c :: s' =>
      if Ascii.eqb c dquote then Some ([], s')
      else if Ascii.eqb c "\"%char || (code c <? 32) then None
      else
        match scan_string s' with
        | Some (t, r) => Some (c :: t, r)
        | None => None
        end
  end.

Definition scan_int (s : str) : option (json * str) :=
  let (sign, s1) :=
    match s with
    | c :: s' => if Ascii.eqb c "-"%char then ([c], s') else ([], s)
    | [] => ([], s)
    end in
  let (d, r) := scan_digits s1 in
  match d with
  | [] => None
  | c :: d' =>
      if Ascii.eqb c "0"%char && nonempty d' then None
      else if existsb (fun x => startswith [x] r) (py ".eE") then None
      else Some (JNum (sign ++ d), r)
  end.

Definition scan_value (s : str) : option (json * str) :=
  match s with
  | [] => None
  | c :: s' =>
      if Ascii.eqb c dquote then
        match scan_string s' with
        | Some (t, r) => Some (JStr t, r)
        | None => None
        end
      else if startswith (py "null") s then Some (JNull, skipn 4 s)
      else if startswith (py "true") s then Some (JBool true, skipn 4 s)
      else if startswith (py "false") s then Some (JBool false, skipn 5 s)
      else scan_int s
  end.

(** The members of an object, read after the opening brace; a key that
    comes twice keeps its last value. *)
Fixpoint scan_members (fuel : nat) (s : str) (d : list (str * json))
  : option (list (str * json) * str) :=
  match fuel, s with
  | S fuel', c :: s1 =>
      if Ascii.eqb c dquote then
        match scan_string s1 with
        | Some (key, s2) =>
            match skip_ws s2 with
            | c2 :: s3 =>
                if Ascii.eqb c2 ":"%char then
                  match scan_value (skip_ws s3) with
                  | Some (v, s4) =>
                      let d' := dict_set key v d in
                      match skip_ws s4 with
                      | c5 :: s5 =>
                          if Ascii.eqb c5 ","%char
                          then scan_members fuel' (skip_ws s5) d'
                          else if Ascii.eqb c5 "}"%char then Some (d', s5)
                          else None
                      | [] => None
                      end
                  | None => None
                  end
                else None
            | [] => None
            end
        | None => None
        end
      else None
  | _, _ => None
  end.

Definition json_loads_flat (s : str) : option json :=
  let finish (v : json) (r : str) :=
    match skip_ws r with
    | [] => Some v
    | _ :: _ => None
    end in
  match skip_ws s with
  | c :: s1 =>
      if Ascii.eqb c "{"%char then
        match skip_ws s1 with
        | c2 :: s2 =>
            if Ascii.eqb c2 "}"%char then finish (JObj []) s2
            else
              match scan_members (length s) (c2 :: s2) [] with
              | Some (d, r) => finish (JObj d) r
              | None => None
              end
        | [] => None
        end
      else None
  | [] => None
  end.

(** ** Sample data for the examples *)

(** A fenced block around a JSON text. *)
Definition fenced (body : str) : str :=
  py "```json" ++ [newline] ++ body ++ [newline] ++ py "```".

(** [{"k1": "v1", ...}] *)
Definition json_text (fields : list (string * string)) : str :=
  let field (kv : string * string) :=
    [dquote] ++ py (fst kv) ++ [dquote] ++ py ": " ++ py (snd kv) in
  let fix join (l : list str) :=
    match l with
    | [] => []
    | [x] => x
    | x :: l' => x ++ py ", " ++ join l'
    end in
  py "{" ++ join (map field fields) ++ py "}".

Definition quoted (s : string) : string :=
  String dquote (s ++ String dquote EmptyString).

(** An environment whose model always answers [response]. *)
Definition sample_env (response : str) : Env :=
  MkEnv json_loads_flat (py "2025-05-24") (fun _ => Ok response).

Definition google_response : str :=
  py "Here are the details:" ++ [newline]
     ++ fenced (json_text [("Company Name", quoted "google");
                           ("Role", quoted "software engineer");
                           ("Date", quoted "2025-05-23");
                           ("Platform", quoted "linkedin");
                           ("Status", quoted "Pending")]%string).

Definition ready : JobTracker := MkJobTracker true true (Some sheet1).

Definition google : Details :=
  MkDetails (py "Google") (py "Software Engineer") (py "2025-05-23")
            (py "Linkedin") (py "Pending").

Definition meta : Details :=
  MkDetails (py "Meta") (py "Data Scientist") (py "2025-05-20")
            (py "Indeed") (py "Pending").

Definition row_of (d : Details) : list str :=
  [Company_Name d; Role d; Date d; Platform d; Accept d].

Definition world_of (g : list (list str)) : World := MkWorld [] g [] [].

Definition sample_text : str :=
  py "I applied for Software Engineer at Google yesterday via LinkedIn".


(** [s.find(p)], with [None] for -1 *)
Fixpoint find (p s : str) : option nat :=
  if startswith p s then Some 0
  else
    match s with
    | [] => None
    | _ :: s' => option_map S (find p s')
    end.

(** [kw] occurs in [text] up to the case of its letters. *)
Definition occurs_ci (kw text : str) : Prop :=
  exists pre mid post, text = pre ++ mid ++ post /\ lower mid = lower kw.

Definition plain_response : str :=
  py "Sorry, I could not find any job details.".

Definition broken_response : str := fenced (py "{not json").

Definition null_platform_response : str :=
  fenced (json_text [("Company Name", quoted "google");
                     ("Role", quoted "software engineer");
                     ("Platform", "null")]%string).

Definition empty_date_response : str :=
  fenced (json_text [("Company Name", quoted "google");
                     ("Role", quoted "software engineer");
                     ("Date", quoted EmptyString)]%string).

Definition swapped_headers : list str :=
  map py ["Role"; "Company Name"; "Date"; "Platform"; "Accept"]%string.

Definition short_headers : list str :=
  map py ["Company Name"; "Role"; "Date"; "Platform"]%string.

(** No failure is scheduled for the worksheet. *)
Definition calm (w : World) : bool :=
  forallb (fun o => match o with
                    | None => true
                    | Some _ => false
                    end) (outages w).

(** A value of a record is the text [s] up to case; a number is not. *)
Definition text_is (v : cell) (s : str) : bool :=
  match v with
  | Text t => str_eqb (lower t) (lower s)
  | Number _ => false
  end.

(** The value of a record under a key is a text. *)
Definition reads_text (key : string) (r : record) : bool :=
  match get_or_empty r key with
  | Text _ => true
  | Number _ => false
  end.

(** What the duplicate test answers when it does not raise. *)
Definition is_duplicate (details : Details) (r : record) : bool :=
  text_is (get_or_empty r "Company Name") (Company_Name details)
  && text_is (get_or_empty r "Role") (Role details)
  && date_is r (Date details).

(** What the removal test answers when it does not raise. *)
Definition company_is (company_name : str) (r : record) : bool :=
  text_is (get_or_empty r "Company Name") company_name.

(** The indices the removal loop collects when it does not raise. *)
Fixpoint matching_rows (company_name : str) (start : nat)
         (records : list record) : list nat :=
  match records with
  | [] => []
  | r :: rest =>
      if company_is company_name r
      then start :: matching_rows company_name (S start) rest
      else matching_rows company_name (S start) rest
  end.

(** The test of the removal loop on a row of a sheet with the given keys. *)
Definition row_is (company_name : str) (keys row : list str) : bool :=
  company_is company_name (record_of keys row).

(** The Company Name values of the records are texts. *)
Definition company_texts (records : list record) : bool :=
  forallb (reads_text "Company Name") records.

(** The Company Name and Role values of the records are texts. *)
Definition key_texts (records : list record) : bool :=
  forallb (fun r => reads_text "Company Name" r && reads_text "Role" r)
          records.

(** The duplicate loop meets no number where it calls [lower]: every
    company is a text, and so is the role where the company is that of the
    record. *)
Definition scan_safe (details : Details) (records : list record) : bool :=
  forallb (fun r =>
             reads_text "Company Name" r
             && (negb (company_is (Company_Name details) r)
                 || reads_text "Role" r))
          records.

(** Company, role and date of the record do not read as numbers. *)
Definition plain (d : Details) : bool :=
  negb (numeric (Company_Name d)) && negb (numeric (Role d))
  && negb (numeric (Date d)).

(** Every character is ASCII. *)
Definition is_ascii (s : str) : bool := forallb (fun c => code c <? 128) s.


Definition numbered : Details :=
  MkDetails (py "123") (py "Analyst") (py "2025-05-23") (py "Indeed")
            (py "Pending").


Definition dated : Details :=
  MkDetails (py "Google") (py "Analyst") (py "2025") (py "Indeed")
            (py "Pending").

Definition lower_error (type : string) : str :=
  py "'" ++ py type ++ py "' object has no attribute 'lower'".

Definition saving_error (m : str) : str :=
  py "Error saving to sheet: " ++ m
     ++ py ". Ensure the service account has edit permissions.".


Definition invalid_structure : str :=
  py "Invalid sheet structure. Ensure columns are: Company Name, Role, Date, Platform, Accept".

Definition is_append (c : call) : bool :=
  match c with
  | AppendRow _ => true
  | _ => false
  end.

Definition removed_message (n : nat) (company_name : str) : str :=
  py "Successfully removed " ++ str_of_nat n ++ py " application(s) for "
     ++ title company_name ++ py " from your job tracker!".

Definition none_found_message (company_name : str) : str :=
  py "No application found for " ++ title company_name
     ++ py " in your job tracker.".

(** A computation that leaves the chat history as it is. *)
Definition quiet {A} (m : M A) : Prop :=
  forall w, messages (snd (m w)) = messages w.

(** A computation that never raises. *)
Definition total {A} (m : M A) : Prop :=
  forall w, exists a, fst (m w) = Ok a.

(** The continuations of the removal pattern: what is left to match after
    the literal "remove", after the target, and before the literal "row". *)
Definition after_row : str -> option str :=
  match_here remove_flags (lits (py "row")).

Definition after_target : str -> option str :=
  repeat1 isspace PlusGreedy false after_row.

Definition after_remove : str -> option str :=
  repeat1 isspace PlusGreedy false
          (repeat1 (class_ok remove_flags Dot) PlusLazy true after_target).

(** The text holds a fenced block: the opening fence and a line break, a
    body, a line break and the closing fence. *)
Definition has_fenced_block (s : str) : Prop :=
  exists pre body post, s = pre ++ fenced body ++ post.

(** The text of a field of a parsed object: the default when the key is
    absent, nothing when the value is not a string. *)
Definition text_field (d : list (str * json)) (key : string) (default : str)
  : option str :=
  match dict_get (py key) d with
  | None => Some default
  | Some (JStr s) => Some s
  | Some _ => None
  end.

(** The shape of a removal request: the word "remove", white space, a
    target without line break, white space, the word "row". *)
Definition removal_phrase (text : str) : Prop :=
  exists pre R ws1 X ws2 W post,
    text = pre ++ R ++ ws1 ++ X ++ ws2 ++ W ++ post
    /\ lower R = py "remove" /\ lower W = py "row"
    /\ ws1 <> [] /\ forallb isspace ws1 = true
    /\ ws2 <> [] /\ forallb isspace ws2 = true
    /\ X <> [] /\ ~ In newline X.

(** A computation that schedules no failure: after it the worksheet is
    calm if it was. *)
Definition keeps_calm {A} (m : M A) : Prop :=
  forall w, calm w = true -> calm (snd (m w)) = true.

(** A computation without effect on the world. *)
Definition still {A} (m : M A) : Prop := forall w, snd (m w) = w.

(** The key of the duplicate test. *)
Definition dedup_key (d : Details) : str * str * str :=
  (lower (Company_Name d), lower (Role d), Date d).

Definition added_message : str := py "Successfully added to your job tracker!".

(** ** Service setup

    [setup_services] reads three secrets and opens the two services. The
    secrets and the library calls are external: a lookup or a call returns
    or raises, a [KeyError] or another exception. The state is the tracker,
    the two entries of [config_status] and the messages given to
    [st.error]. *)

Inductive secret : Type :=
| SText (s : str)
| STable (items : list (str * str)).

(** The truth value of a secret in a condition. *)
Definition truthy (v : secret) : bool :=
  match v with
  | SText s => nonempty s
  | STable [] => false
  | STable (_ :: _) => true
  end.

Inductive failure : Type :=
| KeyFailure (msg : str)       (* KeyError *)
| OtherFailure (msg : str).    (* any other exception *)

Definition str_of_failure (f : failure) : str :=
  match f with
  | KeyFailure m | OtherFailure m => m
  end.

Inductive lookup : Type :=
| Found (v : secret)
| Fails (f : failure).

Record Services : Type := MkServices {
  (** [st.secrets["secrets"][name]] *)
  secret_of : string -> lookup;
  (** [genai.configure(api_key=key)] *)
  configure : secret -> option failure;
  (** the credentials, the client, the workbook and its first sheet *)
  open_sheet : secret -> secret -> option failure
}.

Record Setup : Type := MkSetup {
  tracker : JobTracker;
  status_gemini : bool;
  status_sheets : bool;
  errors : list str
}.

(** [st.error(msg)] *)
Definition st_error (msg : str) (s : Setup) : Setup :=
  MkSetup (tracker s) (status_gemini s) (status_sheets s) (errors s ++ [msg]).

Definition gemini_ready (s : Setup) : Setup :=
  MkSetup (MkJobTracker true (sheets_configured (tracker s))
                        (sheet (tracker s)))
          true (status_sheets s) (errors s).

Definition sheets_ready (s : Setup) : Setup :=
  MkSetup (MkJobTracker (gemini_configured (tracker s)) true (Some sheet1))
          (status_gemini s) true (errors s).

Definition gemini_key_error : str :=
  py "GEMINI_API_KEY not found in Streamlit secrets. Please add it to your app secrets.".

(** The first inner [try]: the result and the exception that leaves it. *)
Definition setup_gemini (sv : Services) (s : Setup) : Setup * option str :=
  match secret_of sv "GEMINI_API_KEY" with
  | Found gemini_api_key =>
      if truthy gemini_api_key then
        match configure sv gemini_api_key with
        | None => (gemini_ready s, None)
        | Some (KeyFailure _) => (st_error gemini_key_error s, None)
        | Some (OtherFailure m) => (s, Some m)
        end
      else (st_error (py "GEMINI_API_KEY not found in secrets") s, None)
  | Fails (KeyFailure _) => (st_error gemini_key_error s, None)
  | Fails (OtherFailure m) => (s, Some m)
  end.

Definition sheets_key_error (m : str) : str :=
  py "Google Sheets credentials not found in Streamlit secrets: " ++ m
     ++ py ". Please add GOOGLE_CREDENTIALS and GOOGLE_SHEET_ID to your app secrets.".

Definition sheets_setup_error (m : str) : str :=
  py "Google Sheets setup error: " ++ m
     ++ py ". Ensure GOOGLE_CREDENTIALS and GOOGLE_SHEET_ID are correct and the sheet is shared with the service account.".

(** The second inner [try]. *)
Definition setup_sheets (sv : Services) (s : Setup) : Setup * option str :=
  match secret_of sv "GOOGLE_CREDENTIALS" with
  | Found google_creds =>
      match secret_of sv "GOOGLE_SHEET_ID" with
      | Found sheet_id =>
          if truthy google_creds && truthy sheet_id then
            match open_sheet sv google_creds sheet_id with
            | None => (sheets_ready s, None)
            | Some e => (st_error (sheets_setup_error (str_of_failure e)) s,
                         None)
            end
          else
            (st_error
               (py "Missing GOOGLE_CREDENTIALS or GOOGLE_SHEET_ID in secrets")
               s, None)
      | Fails (KeyFailure m) => (st_error (sheets_key_error m) s, None)
      | Fails (OtherFailure m) => (s, Some m)
      end
  | Fails (KeyFailure m) => (st_error (sheets_key_error m) s, None)
  | Fails (OtherFailure m) => (s, Some m)
  end.

Definition service_error (m : str) : str := py "Service setup error: " ++ m.

Definition setup_services (sv : Services) (s : Setup) : Setup :=
  match setup_gemini sv s with
  | (s1, Some m) => st_error (service_error m) s1
  | (s1, None) =>
      match setup_sheets sv s1 with
      | (s2, Some m) => st_error (service_error m) s2
      | (s2, None) => s2
      end
  end.

(** [JobTracker()] in a fresh session: the fields set by [__init__], the
    initial [config_status], then [setup_services]. *)
Definition new_tracker (sv : Services) : Setup :=
  setup_services sv (MkSetup (MkJobTracker false false None) false false []).

(** The Gemini step ends with an exception that is not a [KeyError]. *)
Definition gemini_step_breaks (sv : Services) : bool :=
  match secret_of sv "GEMINI_API_KEY" with
  | Found key =>
      truthy key
      && match configure sv key with
         | Some (OtherFailure _) => true
         | _ => false
         end
  | Fails (OtherFailure _) => true
  | Fails (KeyFailure _) => false
  end.

(** * Properties *)

(** ** Text *)

Lemma str_eqb_eq (a b : str) : str_eqb a b = true <-> a = b.
Proof.
  unfold str_eqb. destruct (list_eq_dec ascii_dec a b); split;
    intros; congruence.
Qed.

Lemma str_eqb_refl (a : str) : str_eqb a a = true.
Proof. now apply str_eqb_eq. Qed.

Lemma str_eqb_neq (a b : str) : str_eqb a b = false <-> a <> b.
Proof.
  unfold str_eqb. destruct (list_eq_dec ascii_dec a b); split;
    intros; congruence.
Qed.

Lemma lower_app (a b : str) : lower (a ++ b) = lower a ++ lower b.
Proof. apply map_app. Qed.

Lemma startswith_spec (p s : str) :
  startswith p s = true <-> exists r, s = p ++ r.
Proof.
  revert s. induction p as [|a p IH]; intros s; simpl.
  - split; [intros _; now exists s | reflexivity].
  - destruct s as [|b s].
    + split; [discriminate | intros [r Hr]; discriminate].
    + rewrite andb_true_iff, Ascii.eqb_eq, IH. split.
      * intros [-> [r ->]]. now exists r.
      * intros [r Hr]. injection Hr as -> ->. split; [reflexivity | now exists r].
Qed.

Lemma contains_spec (p s : str) :
  contains p s = true <-> exists a b, s = a ++ p ++ b.
Proof.
  induction s as [|c s IH].
  - simpl. rewrite orb_false_r, startswith_spec. split.
    + intros [r Hr]. now exists [], r.
    + intros [a [b H]]. destruct a; [now exists b | discriminate].
  - simpl. rewrite orb_true_iff, startswith_spec, IH. split.
    + intros [[r Hr] | [a [b H]]].
      * now exists [], r.
      * exists (c :: a), b. now rewrite H.
    + intros [[|x a] [b H]].
      * left. now exists b.
      * right. injection H as _ H. now exists a, b.
Qed.

Lemma contains_lower_occurs (kw text : str) :
  contains (lower kw) (lower text) = true <-> occurs_ci kw text.
Proof.
  rewrite contains_spec. unfold occurs_ci, lower. split.
  - intros [a [b H]].
    apply map_eq_app in H as [pre [r [-> [Ha H]]]].
    apply map_eq_app in H as [mid [post [-> [Hm Hb]]]].
    now exists pre, mid, post.
  - intros [pre [mid [post [-> H]]]].
    exists (map lower_char pre), (map lower_char post).
    now rewrite !map_app, H.
Qed.

Lemma job_keywords_lower : Forall (fun kw => lower kw = kw) job_keywords.
Proof. repeat constructor. Qed.

(** ** Classifier *)

Lemma keyword_test_spec (text : str) :
  existsb (fun keyword => contains keyword (lower text)) job_keywords = true
  <-> exists kw, In kw job_keywords /\ occurs_ci kw text.
Proof.
  rewrite existsb_exists. pose proof job_keywords_lower as L.
  rewrite Forall_forall in L.
  split; intros [kw [Hin H]]; exists kw; split; auto.
  - apply contains_lower_occurs. now rewrite (L kw Hin).
  - apply contains_lower_occurs in H. now rewrite (L kw Hin) in H.
Qed.

(** C4. When the removal pattern does not match the text, the classifier
    answers Application exactly when one of the ten keywords occurs in the
    text up to case, and Conversation exactly when none does. *)
Theorem classifier_keywords (text : str) :
  re_search remove_flags remove_pattern text = None ->
  (is_job_application text = Application
   <-> exists kw, In kw job_keywords /\ occurs_ci kw text)
  /\ (is_job_application text = Conversation
      <-> ~ exists kw, In kw job_keywords /\ occurs_ci kw text).
Proof.
  intros Hno. unfold is_job_application. rewrite Hno.
  rewrite <- keyword_test_spec.
  destruct (existsb _ job_keywords); split; split; intros H;
    try discriminate; try reflexivity; congruence.
Qed.

Lemma classifier_keywords_witness :
  is_job_application (py "I sent Resume to ACME") = Application
  <-> exists kw, In kw job_keywords
                 /\ occurs_ci kw (py "I sent Resume to ACME").
Proof.
  apply (classifier_keywords (py "I sent Resume to ACME")).
  vm_compute. reflexivity.
Defined.

(** ** White space and [strip] *)

Lemma space_not_upper (c : ascii) : isspace c = true -> lower_char c = c.
Proof.
  destruct c as [[] [] [] [] [] [] [] []]; try discriminate; reflexivity.
Qed.

Lemma space_not_row (c x : ascii) :
  isspace c = true -> In x (py "row") -> Ascii.eqb x (lower_char c) = false.
Proof.
  intros Hc Hx. rewrite (space_not_upper c Hc).
  destruct (Ascii.eqb x c) eqn:E; [|reflexivity].
  apply Ascii.eqb_eq in E. subst c.
  simpl in Hx. destruct Hx as [<-|[<-|[<-|[]]]]; discriminate.
Qed.

Lemma lstrip_split (s : str) :
  exists wa, s = wa ++ lstrip s /\ forallb isspace wa = true.
Proof.
  induction s as [|c s [wa [H1 H2]]]; simpl.
  - now exists [].
  - destruct (isspace c) eqn:E.
    + exists (c :: wa). simpl. rewrite E, H2. split; [now f_equal | reflexivity].
    + now exists [].
Qed.

Lemma lstrip_head (s : str) (c : ascii) (r : str) :
  lstrip s = c :: r -> isspace c = false.
Proof.
  induction s as [|a s IH]; simpl; [discriminate|].
  destruct (isspace a) eqn:E; [exact IH|].
  intros H. injection H as -> _. exact E.
Qed.

Lemma rstrip_split (s : str) :
  exists wb, s = rstrip s ++ wb /\ forallb isspace wb = true.
Proof.
  destruct (lstrip_split (rev s)) as [w [H1 H2]].
  exists (rev w). split.
  - unfold rstrip. rewrite <- rev_app_distr, <- H1. now rewrite rev_involutive.
  - rewrite forallb_forall in *. intros x Hx. apply H2. now apply in_rev.
Qed.

Lemma strip_split (X : str) :
  exists wa wb, X = wa ++ strip X ++ wb
                /\ forallb isspace wa = true /\ forallb isspace wb = true.
Proof.
  destruct (lstrip_split X) as [wa [H1 H2]].
  destruct (rstrip_split (lstrip X)) as [wb [H3 H4]].
  exists wa, wb. unfold strip. now rewrite <- H3.
Qed.

Lemma strip_first (X : str) (c : ascii) (r : str) :
  strip X = c :: r -> isspace c = false.
Proof.
  intros H. destruct (rstrip_split (lstrip X)) as [wb [H3 _]].
  fold (strip X) in H3. rewrite H in H3. simpl in H3.
  now apply lstrip_head in H3.
Qed.

Lemma strip_last (X : str) :
  strip X <> [] -> exists b z, strip X = b ++ [z] /\ isspace z = false.
Proof.
  unfold strip, rstrip. intros H.
  destruct (lstrip (rev (lstrip X))) as [|z m] eqn:E; [now destruct H|].
  exists (rev m), z. split; [reflexivity | now apply lstrip_head in E].
Qed.

Lemma strip_idem (X : str) : strip (strip X) = strip X.
Proof.
  destruct (strip X) as [|c r] eqn:E; [reflexivity|].
  assert (Hc : isspace c = false) by now apply strip_first in E.
  assert (Hne : strip X <> []) by now rewrite E.
  destruct (strip_last X Hne) as [b [z [Hb Hz]]].
  rewrite E in Hb. unfold strip at 1. simpl. rewrite Hc.
  unfold rstrip. rewrite Hb, rev_app_distr. simpl. rewrite Hz.
  change (z :: rev b) with ([z] ++ rev b).
  now rewrite rev_app_distr, rev_involutive.
Qed.

(** ** The matcher *)

Lemma keep_none (grp : bool) (c : ascii) (r : option str) :
  keep grp c r = None <-> r = None.
Proof. destruct grp, r; simpl; split; easy. Qed.

Lemma orelse_none {A} (x y : option A) :
  orelse x y = None <-> x = None /\ y = None.
Proof. destruct x, y; simpl; split; try easy; intros []; easy. Qed.

Lemma match_lit_cons (f : flags) (c x : ascii) (l : str) (p : list atom)
      (s : str) :
  match_here f (lits (c :: l) ++ p) (x :: s)
  = if class_ok f (Lit c) x then match_here f (lits l ++ p) s else None.
Proof. reflexivity. Qed.

Lemma match_lit_nil (f : flags) (c : ascii) (l : str) (p : list atom) :
  match_here f (lits (c :: l) ++ p) [] = None.
Proof. reflexivity. Qed.

Lemma match_lits_ok (f : flags) (l R : str) (p : list atom) (s : str) :
  Forall2 (fun c x => class_ok f (Lit c) x = true) l R ->
  match_here f (lits l ++ p) (R ++ s) = match_here f p s.
Proof.
  induction 1 as [|c x l R Hc _ IH]; [reflexivity|].
  cbn [app]. now rewrite match_lit_cons, Hc.
Qed.

Lemma match_lits_inv (f : flags) (l : str) (p : list atom) (s g : str) :
  match_here f (lits l ++ p) s = Some g ->
  exists R s', s = R ++ s'
               /\ Forall2 (fun c x => class_ok f (Lit c) x = true) l R
               /\ match_here f p s' = Some g.
Proof.
  revert s. induction l as [|c l IH]; intros s H.
  - exists [], s. repeat split; [constructor | exact H].
  - destruct s as [|x s]; [discriminate|].
    rewrite match_lit_cons in H.
    destruct (class_ok f (Lit c) x) eqn:E; [|discriminate].
    apply IH in H as [R [s' [-> [HR Hp]]]].
    exists (x :: R), s'. repeat split; [now constructor | exact Hp].
Qed.

Lemma lits_ci (l R : str) :
  Forall2 (fun c x => class_ok remove_flags (Lit c) x = true) l R
  <-> lower R = lower l.
Proof.
  split.
  - induction 1 as [|c x l R Hc _ IH]; [reflexivity|].
    simpl in *. apply Ascii.eqb_eq in Hc. now rewrite Hc, IH.
  - revert R. induction l as [|c l IH]; intros [|x R] H; try discriminate.
    + constructor.
    + injection H as Hx HR. constructor; [|now apply IH].
      simpl. now apply Ascii.eqb_eq.
Qed.

Lemma lits_exact (l R : str) :
  Forall2 (fun c x => class_ok json_flags (Lit c) x = true) l R <-> R = l.
Proof.
  split.
  - induction 1 as [|c x l R Hc _ IH]; [reflexivity|].
    simpl in Hc. apply Ascii.eqb_eq in Hc. now subst.
  - intros ->. induction l; constructor; [|assumption].
    simpl. now apply Ascii.eqb_eq.
Qed.

Lemma repeat1_cons (ok : ascii -> bool) (q : quant) (grp : bool)
      (k : str -> option str) (c : ascii) (s : str) :
  repeat1 ok q grp k (c :: s)
  = if ok c then
      keep grp c
        match q with
        | Once => k s
        | PlusGreedy => orelse (repeat1 ok q grp k s) (k s)
        | PlusLazy | StarLazy => orelse (k s) (repeat1 ok q grp k s)
        end
    else None.
Proof. reflexivity. Qed.

Lemma plus_complete (ok : ascii -> bool) (q : quant) (grp : bool)
      (k : str -> option str) (cs rest : str) :
  q <> Once -> cs <> [] -> forallb ok cs = true -> k rest <> None ->
  repeat1 ok q grp k (cs ++ rest) <> None.
Proof.
  intros Hq Hne Hok Hk. induction cs as [|c cs IH]; [now destruct Hne|].
  simpl in *. apply andb_true_iff in Hok as [Hc Hcs]. rewrite Hc.
  rewrite keep_none. destruct cs as [|c' cs].
  - simpl. destruct q; try (now destruct Hq); rewrite orelse_none; tauto.
  - assert (H : repeat1 ok q grp k ((c' :: cs) ++ rest) <> None)
      by (apply IH; [discriminate | exact Hcs]).
    destruct q; try (now destruct Hq); rewrite orelse_none; tauto.
Qed.

Lemma greedy_sound (ok : ascii -> bool) (k : str -> option str) (s g : str) :
  repeat1 ok PlusGreedy false k s = Some g ->
  exists ws rest, s = ws ++ rest /\ ws <> [] /\ forallb ok ws = true
                  /\ k rest = Some g.
Proof.
  revert g. induction s as [|c s IH]; intros g H; [discriminate|].
  simpl in H. destruct (ok c) eqn:E; [|discriminate].
  destruct (repeat1 ok PlusGreedy false k s) as [g'|] eqn:E'.
  - simpl in H. injection H as <-.
    destruct (IH g' eq_refl) as [ws [rest [-> [_ [Hws Hk]]]]].
    exists (c :: ws), rest. simpl. rewrite E, Hws. now repeat split.
  - simpl in H. exists [c], s. simpl. rewrite E. now repeat split.
Qed.

Lemma greedy_longest (ok : ascii -> bool) (k : str -> option str)
      (ws rest g : str) :
  ws <> [] -> forallb ok ws = true ->
  repeat1 ok PlusGreedy false k rest = None -> k rest = Some g ->
  repeat1 ok PlusGreedy false k (ws ++ rest) = Some g.
Proof.
  intros Hne Hok Hstop Hk. induction ws as [|c ws IH]; [now destruct Hne|].
  simpl in *. apply andb_true_iff in Hok as [Hc Hws]. rewrite Hc.
  destruct ws as [|c' ws].
  - simpl. now rewrite Hstop.
  - rewrite IH; [reflexivity | discriminate | exact Hws].
Qed.

Lemma lazy_shortest (ok : ascii -> bool) (k : str -> option str)
      (cs rest g : str) :
  cs <> [] -> forallb ok cs = true ->
  (forall a b, cs = a ++ b -> a <> [] -> b <> [] -> k (b ++ rest) = None) ->
  k rest = Some g ->
  repeat1 ok PlusLazy true k (cs ++ rest) = Some (cs ++ g).
Proof.
  intros Hne Hok Hsplit Hk. induction cs as [|c cs IH]; [now destruct Hne|].
  change ((c :: cs) ++ rest) with (c :: (cs ++ rest)). rewrite repeat1_cons.
  simpl in Hok. apply andb_true_iff in Hok as [Hc Hcs]. rewrite Hc.
  destruct cs as [|c' cs].
  - simpl. now rewrite Hk.
  - rewrite (Hsplit [c] (c' :: cs)); [|reflexivity|discriminate|discriminate].
    change (orelse None ?y) with y.
    rewrite IH; [reflexivity | discriminate | exact Hcs |].
    intros a b Hab Ha Hb. apply (Hsplit (c :: a) b); [|discriminate|exact Hb].
    simpl. now rewrite Hab.
Qed.

Lemma lazy_sound (ok : ascii -> bool) (q : quant) (k : str -> option str)
      (s g : str) :
  q = PlusLazy \/ q = StarLazy ->
  repeat1 ok q true k s = Some g ->
  exists body rest g', s = body ++ rest /\ k rest = Some g' /\ g = body ++ g'.
Proof.
  intros Hq. revert g. induction s as [|c s IH]; intros g H; [discriminate|].
  simpl in H. destruct (ok c); [|discriminate].
  assert (H' : option_map (cons c) (orelse (k s) (repeat1 ok q true k s))
               = Some g) by (destruct Hq; subst q; exact H).
  clear H. destruct (k s) as [g1|] eqn:E.
  - simpl in H'. injection H' as <-. now exists [c], s, g1.
  - simpl in H'. destruct (repeat1 ok q true k s) as [g2|]; [|discriminate].
    injection H' as <-.
    destruct (IH g2 eq_refl) as [body [rest [g' [-> [Hk ->]]]]].
    now exists (c :: body), rest, g'.
Qed.

Lemma search_sound (f : flags) (p : list atom) (s g : str) :
  re_search f p s = Some g ->
  exists pre s', s = pre ++ s' /\ match_here f p s' = Some g.
Proof.
  induction s as [|c s IH]; simpl.
  - destruct (match_here f p []) eqn:E; [|discriminate].
    intros H. injection H as <-. now exists [], [].
  - destruct (match_here f p (c :: s)) eqn:E.
    + intros H. injection H as <-. now exists [], (c :: s).
    + intros H. destruct (IH H) as [pre [s' [-> Hm]]].
      now exists (c :: pre), s'.
Qed.

Lemma search_complete (f : flags) (p : list atom) (pre s : str) :
  match_here f p s <> None -> re_search f p (pre ++ s) <> None.
Proof.
  intros H. induction pre as [|c pre IH]; simpl.
  - destruct s; simpl; destruct (match_here f p _); congruence.
  - destruct (match_here f p (c :: pre ++ s)); [discriminate | exact IH].
Qed.

Lemma search_from_first (f : flags) (p : list atom) (p0 pre rest : str) :
  (forall s, match_here f p s <> None -> startswith p0 (lower s) = true) ->
  find p0 (lower (pre ++ rest)) = Some (length pre) ->
  re_search f p (pre ++ rest) = re_search f p rest.
Proof.
  intros Hlit. induction pre as [|c pre IH]; [reflexivity|].
  intros H. cbn [app lower map find length] in H.
  destruct (startswith p0 (lower_char c :: map lower_char (pre ++ rest)))
    eqn:E; [discriminate|].
  cbn [app re_search].
  destruct (match_here f p (c :: pre ++ rest)) eqn:Em.
  - assert (Hs : startswith p0 (lower (c :: pre ++ rest)) = true)
      by (apply Hlit; congruence).
    unfold lower in Hs. simpl map in Hs. congruence.
  - apply IH. fold (lower (pre ++ rest)) in H.
    destruct (find p0 (lower (pre ++ rest))); [|discriminate].
    simpl in H. congruence.
Qed.

Lemma search_here (f : flags) (p : list atom) (s g : str) :
  match_here f p s = Some g -> re_search f p s = Some g.
Proof. intros H. destruct s; simpl; now rewrite H. Qed.

Lemma contains_inside (p x y z : str) :
  contains p y = true -> contains p (x ++ y ++ z) = true.
Proof.
  rewrite !contains_spec. intros [a [b ->]].
  exists (x ++ a), (b ++ z). now rewrite <- !app_assoc.
Qed.

Lemma no_newline_dot (s : str) :
  ~ In newline s -> forallb (class_ok remove_flags Dot) s = true.
Proof.
  induction s as [|c s IH]; [reflexivity|].
  intros H. simpl in *. rewrite IH by tauto.
  destruct (Ascii.eqb c newline) eqn:E; [|reflexivity].
  apply Ascii.eqb_eq in E. subst c. tauto.
Qed.

(** ** The removal pattern *)

Lemma remove_pattern_unfold (R s : str) :
  lower R = py "remove" ->
  match_here remove_flags remove_pattern (R ++ s) = after_remove s.
Proof.
  intros H. unfold remove_pattern. rewrite match_lits_ok; [reflexivity|].
  now apply lits_ci.
Qed.

Lemma remove_pattern_literal (s : str) :
  match_here remove_flags remove_pattern s <> None ->
  startswith (py "remove") (lower s) = true.
Proof.
  intros H. destruct (match_here remove_flags remove_pattern s) as [g|] eqn:E;
    [clear H | now destruct H].
  apply match_lits_inv in E as [R [s' [-> [HR _]]]].
  apply lits_ci in HR. apply startswith_spec.
  exists (lower s'). rewrite lower_app. now rewrite HR.
Qed.

Lemma after_row_ok (W post : str) :
  lower W = py "row" -> after_row (W ++ post) = Some [].
Proof.
  intros H. unfold after_row.
  rewrite <- (app_nil_r (lits (py "row"))).
  rewrite match_lits_ok; [reflexivity | now apply lits_ci].
Qed.

Lemma after_row_literal (s : str) :
  after_row s <> None -> startswith (py "row") (lower s) = true.
Proof.
  unfold after_row. rewrite <- (app_nil_r (lits (py "row"))). intros H.
  destruct (match_here _ _ s) as [g|] eqn:E; [clear H | now destruct H].
  apply match_lits_inv in E as [R [s' [-> [HR _]]]].
  apply lits_ci in HR. apply startswith_spec.
  exists (lower s'). rewrite lower_app. now rewrite HR.
Qed.

Lemma row_not_space (W : str) (c : ascii) (r : str) :
  lower W = py "row" -> W = c :: r -> isspace c = false.
Proof.
  intros H ->. injection H as H _.
  destruct (isspace c) eqn:E; [|reflexivity].
  pose proof (space_not_row c "r"%char E (or_introl eq_refl)) as N.
  rewrite H in N. discriminate.
Qed.

Lemma row_needs_room (b : str) (t : ascii) (T : str) :
  b <> [] -> isspace t = true ->
  startswith (py "row") (lower (b ++ t :: T)) = true ->
  startswith (py "row") (lower b) = true.
Proof.
  intros Hb Ht. change (py "row") with ["r"; "o"; "w"]%char.
  destruct b as [|x [|y [|z b]]]; [now destruct Hb| | |];
    cbn [app lower map startswith].
  - rewrite (space_not_row t "o"%char Ht) by (simpl; tauto).
    rewrite andb_false_l, andb_false_r. discriminate.
  - rewrite (space_not_row t "w"%char Ht) by (simpl; tauto).
    rewrite andb_false_l, !andb_false_r. discriminate.
  - trivial.
Qed.

(** No shorter target: inside a text that ends with a visible character,
    has no "row" in it and is followed by white space, white space is never
    followed by "row". *)
Lemma no_row_inside (b : str) (z t : ascii) (T : str) :
  isspace z = false -> isspace t = true ->
  contains (py "row") (lower (b ++ [z])) = false ->
  after_target ((b ++ [z]) ++ t :: T) = None.
Proof.
  intros Hz Ht. unfold after_target. induction b as [|c b IH]; intros Hc.
  - cbn [app]. now rewrite repeat1_cons, Hz.
  - cbn [app]. rewrite repeat1_cons. destruct (isspace c); [|reflexivity].
    cbn [app lower map contains] in Hc.
    apply orb_false_iff in Hc as [_ Hc]. fold (lower (b ++ [z])) in Hc.
    rewrite (IH Hc). change (orelse None ?y) with y. apply keep_none.
    destruct (after_row ((b ++ [z]) ++ t :: T)) eqn:E; [|reflexivity].
    assert (S : startswith (py "row") (lower (b ++ [z])) = true).
    { apply (row_needs_room (b ++ [z]) t T); [now destruct b | exact Ht |].
      apply after_row_literal. congruence. }
    destruct (b ++ [z]); simpl in Hc, S; rewrite S in Hc; discriminate.
Qed.

(** C3 (amended). A text that contains "remove X row", the two words in any
    case and X not empty and without a line break, is classified as a
    removal. When this is the first "remove" of the text, X has a visible
    character and "row" does not occur in X, the target recovered by the
    pattern, once trimmed, is X trimmed. *)
Theorem remove_phrase (pre R X W post : str) :
  lower R = py "remove" -> lower W = py "row" ->
  X <> [] -> ~ In newline X ->
  let text := pre ++ R ++ py " " ++ X ++ py " " ++ W ++ post in
  is_job_application text = Remove
  /\ (find (py "remove") (lower text) = Some (length pre) ->
      contains (py "row") (lower X) = false ->
      strip X <> [] ->
      exists g, re_search remove_flags remove_pattern text = Some g
                /\ strip g = strip X).
Proof.
  intros HR HW HX Hnl text. subst text.
  change (py " ") with [" "%char].
  assert (Hrow : after_row (W ++ post) = Some []) by now apply after_row_ok.
  split.
  - unfold is_job_application.
    destruct (re_search remove_flags remove_pattern _) eqn:E; [reflexivity|].
    exfalso. revert E. apply search_complete.
    rewrite (remove_pattern_unfold R _ HR). unfold after_remove.
    apply (plus_complete _ _ _ _ [" "%char]); try easy.
    apply plus_complete; try easy; [now apply no_newline_dot|].
    unfold after_target.
    apply (plus_complete _ _ _ _ [" "%char]); try easy. congruence.
  - intros Hfirst Hnorow Hcore.
    destruct (strip_split X) as [wa [wb [EX [Hwa Hwb]]]].
    destruct (strip_last X Hcore) as [m [z [Em Hz]]].
    destruct (strip X) as [|c core] eqn:Ec; [now destruct Hcore|].
    assert (Hc : isspace c = false) by now apply strip_first in Ec.
    exists (c :: core). split; [|rewrite <- Ec; apply strip_idem].
    rewrite (search_from_first _ _ (py "remove")); auto using remove_pattern_literal.
    apply search_here. rewrite (remove_pattern_unfold R _ HR). unfold after_remove.
    set (T := wb ++ [" "%char] ++ W ++ post).
    replace ([" "%char] ++ X ++ [" "%char] ++ W ++ post)
      with (([" "%char] ++ wa) ++ (c :: core) ++ T)
      by (rewrite EX; unfold T; now rewrite <- !app_assoc).
    assert (HT : after_target T = Some []).
    { unfold T, after_target. rewrite app_assoc. apply greedy_longest.
      - now destruct wb.
      - rewrite forallb_app, Hwb. reflexivity.
      - destruct W as [|w0 W']; [discriminate|].
        cbn [app]. rewrite repeat1_cons.
        now rewrite (row_not_space _ _ _ HW eq_refl).
      - exact Hrow. }
    assert (ET : exists t T', T = t :: T' /\ isspace t = true).
    { unfold T. destruct wb as [|t wb]; [now exists " "%char, (W ++ post)|].
      simpl in Hwb. apply andb_true_iff in Hwb as [Ht _].
      now exists t, (wb ++ [" "%char] ++ W ++ post). }
    destruct ET as [t [T' [ET Ht]]].
    apply greedy_longest.
    + discriminate.
    + simpl. exact Hwa.
    + cbn [app]. now rewrite repeat1_cons, Hc.
    + rewrite <- (app_nil_r (c :: core)) at 2. apply lazy_shortest.
      * discriminate.
      * apply no_newline_dot. intros Hin. apply Hnl. rewrite EX.
        apply in_or_app. right. apply in_or_app. now left.
      * intros a b Hab Ha Hb.
        destruct (exists_last Hb) as [b0 [z' ->]].
        assert (Hm : a ++ b0 = m /\ z' = z)
          by (apply app_inj_tail; now rewrite <- app_assoc, <- Hab).
        destruct Hm as [Hm ->].
        rewrite ET. apply no_row_inside; auto.
        destruct (contains (py "row") (lower (b0 ++ [z]))) eqn:E; [|reflexivity].
        rewrite <- Hnorow. symmetry. rewrite EX, Em, <- Hm.
        replace (wa ++ ((a ++ b0) ++ [z]) ++ wb)
          with ((wa ++ a) ++ (b0 ++ [z]) ++ wb) by (now rewrite <- !app_assoc).
        rewrite lower_app, (lower_app (b0 ++ [z])).
        now apply contains_inside.
      * exact HT.
Qed.

Lemma remove_phrase_witness :
  is_job_application (py "please Remove  Google Inc  ROW now") = Remove
  /\ exists g,
      re_search remove_flags remove_pattern
                (py "please Remove  Google Inc  ROW now") = Some g
      /\ strip g = py "Google Inc".
Proof.
  destruct (remove_phrase (py "please ") (py "Remove") (py " Google Inc ")
                          (py "ROW") (py " now")) as [H1 H2].
  - reflexivity.
  - reflexivity.
  - discriminate.
  - vm_compute. intuition discriminate.
  - split; [exact H1|]. apply H2.
    + reflexivity.
    + reflexivity.
    + discriminate.
Defined.

Lemma remove_phrase_counterexample :
  (let X := py "a" ++ [newline] ++ py "b" in
   X <> [] /\ contains (py "row") (lower X) = false
   /\ is_job_application (py "remove " ++ X ++ py " row") <> Remove)
  /\ (let X := py "Google" in
      option_map strip
        (re_search remove_flags remove_pattern
                   (py "remove a remove " ++ X ++ py " row"))
      <> Some (strip X))
  /\ (let X := py " " in
      X <> []
      /\ option_map strip
           (re_search remove_flags remove_pattern
                      (py "remove " ++ X ++ py " row x row"))
         <> Some (strip X)).
Proof. vm_compute. repeat split; discriminate. Qed.

(** ** The fenced block *)

Lemma dotall_ok (s : str) : forallb (class_ok json_flags Dot) s = true.
Proof. induction s; simpl; auto. Qed.

Lemma json_pattern_complete (s : str) :
  has_fenced_block s -> re_search json_flags json_pattern s <> None.
Proof.
  intros [pre [body [post ->]]]. apply search_complete.
  unfold fenced, json_pattern. rewrite (app_assoc (py "```json")).
  rewrite <- app_assoc.
  rewrite match_lits_ok by now apply lits_exact.
  cbn [app match_here match_atom a_quant a_class a_group].
  assert (K : match_here json_flags (lits (newline :: py "```"))
                         ([newline] ++ py "```" ++ post) = Some []).
  { rewrite <- (app_nil_r (lits _)).
    change ([newline] ++ py "```" ++ post)
      with ((newline :: py "```") ++ post).
    rewrite match_lits_ok; [reflexivity | now apply lits_exact]. }
  destruct body as [|c body].
  - cbn [app]. intros H. apply orelse_none in H as [H _].
    cbn [app] in K. congruence.
  - intros H. apply orelse_none in H as [_ H]. revert H.
    rewrite <- app_assoc.
    apply plus_complete;
      [discriminate | discriminate | apply dotall_ok | intros E].
    change ((newline :: py "```") ++ post)
      with ([newline] ++ py "```" ++ post) in E.
    congruence.
Qed.

Lemma json_pattern_sound (s block : str) :
  re_search json_flags json_pattern s = Some block ->
  exists pre post, s = pre ++ fenced block ++ post.
Proof.
  intros H. apply search_sound in H as [pre [s' [-> H]]].
  unfold json_pattern in H.
  apply match_lits_inv in H as [R [s1 [-> [HR H]]]].
  apply lits_exact in HR. subst R.
  cbn [app match_here match_atom a_quant a_class a_group] in H.
  assert (K : forall r g,
             match_here json_flags (lits (newline :: py "```")) r = Some g ->
             g = [] /\ exists post, r = newline :: py "```" ++ post).
  { intros r g Hr. rewrite <- (app_nil_r (lits _)) in Hr.
    apply match_lits_inv in Hr as [R [post [-> [HR Hg]]]].
    apply lits_exact in HR. subst R. simpl in Hg. injection Hg as <-.
    split; [reflexivity | now exists post]. }
  assert (B : exists body rest g',
             s1 = body ++ rest
             /\ match_here json_flags (lits (newline :: py "```")) rest
                = Some g'
             /\ block = body ++ g').
  { destruct (match_here json_flags (lits (newline :: py "```")) s1)
      as [g1|] eqn:E.
    - simpl in H. injection H as <-. now exists [], s1, g1.
    - simpl in H. apply lazy_sound in H; [exact H | now right]. }
  destruct B as [body [rest [g' [-> [Hk ->]]]]].
  apply K in Hk as [-> [post ->]].
  exists pre, post. unfold fenced. rewrite app_nil_r.
  now rewrite <- !app_assoc.
Qed.

Lemma lstrip_keeps (pre : str) (b : ascii) (rest : str) :
  isspace b = false ->
  exists pre', lstrip (pre ++ b :: rest) = pre' ++ b :: rest.
Proof.
  intros Hb. induction pre as [|c pre [pre' IH]]; simpl.
  - rewrite Hb. now exists [].
  - destruct (isspace c); [now exists pre' | now exists (c :: pre)].
Qed.

Lemma rstrip_keeps (pre : str) (b : ascii) (post : str) :
  isspace b = false ->
  exists post', rstrip (pre ++ b :: post) = pre ++ b :: post'.
Proof.
  intros Hb. unfold rstrip.
  replace (rev (pre ++ b :: post)) with (rev post ++ b :: rev pre)
    by (rewrite rev_app_distr; simpl; now rewrite <- app_assoc).
  destruct (lstrip_keeps (rev post) b (rev pre) Hb) as [q ->].
  exists (rev q). rewrite rev_app_distr. simpl.
  rewrite rev_involutive. now rewrite <- app_assoc.
Qed.

Ltac app_normal :=
  repeat (rewrite <- app_assoc || rewrite <- app_comm_cons).

Lemma fenced_app (body post : str) :
  fenced body ++ post
  = py "```json" ++ [newline] ++ body ++ [newline] ++ py "```" ++ post.
Proof. unfold fenced. now rewrite <- !app_assoc. Qed.

Lemma fenced_block_strip (s : str) :
  has_fenced_block s <-> has_fenced_block (strip s).
Proof.
  split.
  - intros [pre [body [post ->]]]. unfold strip.
    assert (Hq : isspace "`"%char = false) by reflexivity.
    rewrite fenced_app.
    set (inner := py "``json" ++ [newline] ++ body ++ [newline]).
    change (py "```json" ++ [newline] ++ body ++ [newline] ++ py "```" ++ post)
      with ("`"%char :: py "``json" ++ [newline] ++ body ++ [newline]
               ++ py "``" ++ "`"%char :: post).
    destruct (lstrip_keeps pre "`"%char
                (py "``json" ++ [newline] ++ body ++ [newline] ++ py "``"
                    ++ "`"%char :: post) Hq) as [pre' ->].
    replace (pre' ++ "`"%char :: py "``json" ++ [newline] ++ body
                  ++ [newline] ++ py "``" ++ "`"%char :: post)
      with ((pre' ++ "`"%char :: inner ++ py "``") ++ "`"%char :: post)
      by (unfold inner; now app_normal).
    destruct (rstrip_keeps (pre' ++ "`"%char :: inner ++ py "``")
                           "`"%char post Hq) as [post' ->].
    exists pre', body, post'. rewrite fenced_app.
    unfold inner. now app_normal.
  - intros [pre [body [post E]]].
    destruct (strip_split s) as [wa [wb [Es _]]].
    exists (wa ++ pre), body, (post ++ wb).
    rewrite Es, E. now rewrite <- !app_assoc.
Qed.

(** ** Extraction *)

Section Extraction.

Variables (env : Env) (self : JobTracker) (text : str)
          (history : list Message) (response : str).

Hypothesis configured : gemini_configured self = true.
Hypothesis answered :
  generate_content env (extraction_prompt env text history) = Ok response.

Lemma extract_no_block (w : World) :
  re_search json_flags json_pattern (strip response) = None ->
  extract_job_details env self text history w
  = (Ok (empty_details, false,
         py "No valid job application details found"), w).
Proof.
  intros H. unfold extract_job_details. rewrite configured.
  unfold try_except, bind, generate. cbn [negb]. rewrite answered, H.
  reflexivity.
Qed.

Lemma extract_bad_json (w : World) (block : str) :
  re_search json_flags json_pattern (strip response) = Some block ->
  json_loads env block = None ->
  extract_job_details env self text history w
  = (Ok (empty_details, false, py "Failed to parse Gemini AI response"), w).
Proof.
  intros H E. unfold extract_job_details. rewrite configured.
  unfold try_except, bind, generate, loads. cbn [negb].
  rewrite answered, H, E. reflexivity.
Qed.

Lemma get_text {A} (d : list (str * json)) (key : string) (default s : str)
      (k : str -> M A) (w : World) :
  text_field d key default = Some s ->
  (v <- get (JObj d) key (JStr default) ;; s' <- strip_of v ;; k s') w
  = k (strip s) w.
Proof.
  unfold text_field, bind, get, ret. intros H.
  destruct (dict_get (py key) d) as [[]|]; try discriminate;
    injection H as <-; reflexivity.
Qed.

Lemma extract_fields (w : World) (block : str) (d : list (str * json))
      (c r dt p st : str) :
  re_search json_flags json_pattern (strip response) = Some block ->
  json_loads env block = Some (JObj d) ->
  text_field d "Company Name" [] = Some c ->
  text_field d "Role" [] = Some r ->
  text_field d "Date" (today env) = Some dt ->
  text_field d "Platform" [] = Some p ->
  text_field d "Status" (py "Pending") = Some st ->
  extract_job_details env self text history w
  = (Ok (MkDetails (title (strip c)) (title (strip r)) (strip dt)
                   (title (strip p)) (strip st),
         nonempty (title (strip c)) && nonempty (title (strip r)),
         py "Successfully extracted details"), w).
Proof.
  intros H E Hc Hr Hd Hp Hs. unfold extract_job_details. rewrite configured.
  cbn [negb]. unfold try_except at 1. unfold bind at 1. unfold generate.
  rewrite answered, H. unfold try_except. unfold bind at 1. unfold loads.
  rewrite E. unfold ret at 1.
  rewrite (get_text _ _ _ _ _ _ Hc), (get_text _ _ _ _ _ _ Hr),
    (get_text _ _ _ _ _ _ Hd), (get_text _ _ _ _ _ _ Hp),
    (get_text _ _ _ _ _ _ Hs).
  reflexivity.
Qed.

(** A field that is present and is not a string ends the extraction with
    the empty record. *)
Lemma extract_wrong_type (w : World) (block : str) (d : list (str * json)) :
  re_search json_flags json_pattern (strip response) = Some block ->
  json_loads env block = Some (JObj d) ->
  text_field d "Company Name" [] = None ->
  exists msg,
    extract_job_details env self text history w
    = (Ok (empty_details, false, msg), w).
Proof.
  intros H E Hc. unfold extract_job_details. rewrite configured.
  cbn [negb]. unfold try_except at 1. unfold bind at 1. unfold generate.
  rewrite answered, H. unfold try_except. unfold bind at 1. unfold loads.
  rewrite E. unfold ret at 1. unfold text_field in Hc.
  unfold bind at 1. unfold get at 1.
  destruct (dict_get (py "Company Name") d) as [[]|]; try discriminate;
    eexists; reflexivity.
Qed.

End Extraction.

Lemma title_nonempty (s : str) : nonempty (title s) = nonempty s.
Proof. now destruct s. Qed.

Lemma nonempty_true (s : str) : nonempty s = true <-> s <> [].
Proof. destruct s; simpl; split; easy. Qed.

(** C6. When the model response holds no fenced block, extraction returns
    the empty record (status Pending), not valid, with the message that no
    valid details were found. When it holds one, the pattern locates a
    block of the trimmed response, and if that block is not parseable JSON
    extraction returns the empty record, not valid, with the message that
    the response failed to parse. *)
Theorem extract_without_json (env : Env) (self : JobTracker) (text : str)
        (history : list Message) (response : str) (w : World) :
  gemini_configured self = true ->
  generate_content env (extraction_prompt env text history) = Ok response ->
  (~ has_fenced_block response ->
   extract_job_details env self text history w
   = (Ok (empty_details, false,
          py "No valid job application details found"), w))
  /\ (has_fenced_block response ->
      exists block,
        re_search json_flags json_pattern (strip response) = Some block
        /\ (exists pre post, strip response = pre ++ fenced block ++ post)
        /\ (json_loads env block = None ->
            extract_job_details env self text history w
            = (Ok (empty_details, false,
                   py "Failed to parse Gemini AI response"), w))).
Proof.
  intros Hc Ha. split.
  - intros Hno. apply extract_no_block with (response := response); auto.
    destruct (re_search json_flags json_pattern (strip response)) eqn:E;
      [|reflexivity].
    destruct Hno. apply fenced_block_strip.
    apply json_pattern_sound in E as [pre [post E]].
    now exists pre, s, post.
  - intros Hb. apply fenced_block_strip in Hb.
    apply json_pattern_complete in Hb.
    destruct (re_search json_flags json_pattern (strip response))
      as [block|] eqn:E; [clear Hb | now destruct Hb].
    exists block. split; [reflexivity|]. split.
    + now apply json_pattern_sound.
    + intros Hj. now apply extract_bad_json with (response := response)
                                                  (block := block).
Qed.

Lemma extract_without_json_witness :
  extract_job_details (sample_env plain_response) ready sample_text []
                      (world_of [])
  = (Ok (empty_details, false, py "No valid job application details found"),
     world_of [])
  /\ extract_job_details (sample_env broken_response) ready sample_text []
                         (world_of [])
     = (Ok (empty_details, false, py "Failed to parse Gemini AI response"),
        world_of []).
Proof.
  split.
  - apply (extract_without_json (sample_env plain_response) ready sample_text
                                [] plain_response (world_of []));
      [reflexivity | reflexivity |].
    intros Hb. apply fenced_block_strip, json_pattern_complete in Hb.
    now apply Hb.
  - destruct (extract_without_json (sample_env broken_response) ready
                sample_text [] broken_response (world_of []))
      as [_ H]; [reflexivity | reflexivity |].
    destruct H as [block [Hs [_ H]]]; [now exists [], (py "{not json"), []|].
    apply H. vm_compute in Hs. injection Hs as <-. reflexivity.
Defined.

(** C5 (amended). When the first fenced block of the response parses to a
    JSON object whose fields Company Name, Role, Date, Platform and Status
    are each absent or a string, extraction returns the record with company,
    role and platform trimmed and title-cased and with date and status
    trimmed; it is valid exactly when company and role are not empty. For
    the company "google", the role "software engineer" and the platform
    "linkedin" the record has Google, Software Engineer and Linkedin and is
    valid. *)
Theorem extract_title_cases (env : Env) (self : JobTracker) (text : str)
        (history : list Message) (response : str) (w : World)
        (block : str) (d : list (str * json)) (c r dt p st : str) :
  gemini_configured self = true ->
  generate_content env (extraction_prompt env text history) = Ok response ->
  re_search json_flags json_pattern (strip response) = Some block ->
  json_loads env block = Some (JObj d) ->
  text_field d "Company Name" [] = Some c ->
  text_field d "Role" [] = Some r ->
  text_field d "Date" (today env) = Some dt ->
  text_field d "Platform" [] = Some p ->
  text_field d "Status" (py "Pending") = Some st ->
  exists details is_valid msg,
    extract_job_details env self text history w
    = (Ok (details, is_valid, msg), w)
    /\ Company_Name details = title (strip c)
    /\ Role details = title (strip r)
    /\ Platform details = title (strip p)
    /\ Date details = strip dt
    /\ Accept details = strip st
    /\ (is_valid = true <-> Company_Name details <> [] /\ Role details <> [])
    /\ (c = py "google" -> r = py "software engineer" -> p = py "linkedin" ->
        Company_Name details = py "Google"
        /\ Role details = py "Software Engineer"
        /\ Platform details = py "Linkedin"
        /\ is_valid = true).
Proof.
  intros Hconf Hans Hblock Hjson Hc Hr Hd Hp Hs.
  eexists _, _, _. split.
  - exact (extract_fields env self text history response Hconf Hans w block
                          d c r dt p st Hblock Hjson Hc Hr Hd Hp Hs).
  - cbn [Company_Name Role Date Platform Accept]. repeat split; auto.
    + apply andb_true_iff in H as [H _]. now apply nonempty_true.
    + apply andb_true_iff in H as [_ H]. now apply nonempty_true.
    + intros [H1 H2]. apply andb_true_iff. now rewrite !nonempty_true.
    + now subst.
    + now subst.
    + now subst.
    + now subst.
Qed.

Lemma extract_title_cases_witness :
  exists details is_valid msg,
    extract_job_details (sample_env google_response) ready sample_text []
                        (world_of [])
    = (Ok (details, is_valid, msg), world_of [])
    /\ Company_Name details = py "Google"
    /\ Role details = py "Software Engineer"
    /\ Platform details = py "Linkedin"
    /\ Date details = py "2025-05-23"
    /\ Accept details = py "Pending"
    /\ is_valid = true.
Proof.
  destruct (extract_title_cases
              (sample_env google_response) ready sample_text []
              google_response (world_of [])
              (json_text [("Company Name", quoted "google");
                          ("Role", quoted "software engineer");
                          ("Date", quoted "2025-05-23");
                          ("Platform", quoted "linkedin");
                          ("Status", quoted "Pending")]%string)
              [(py "Company Name", JStr (py "google"));
               (py "Role", JStr (py "software engineer"));
               (py "Date", JStr (py "2025-05-23"));
               (py "Platform", JStr (py "linkedin"));
               (py "Status", JStr (py "Pending"))]
              (py "google") (py "software engineer") (py "2025-05-23")
              (py "linkedin") (py "Pending"))
    as [details [is_valid [msg [E [H1 [H2 [H3 [H4 [H5 [_ H6]]]]]]]]]];
    try reflexivity.
  exists details, is_valid, msg.
  destruct H6 as [_ [_ [_ H6]]]; try reflexivity.
  repeat split; assumption.
Defined.

Lemma extract_title_cases_counterexample :
  json_loads_flat
    (json_text [("Company Name", quoted "google");
                ("Role", quoted "software engineer");
                ("Platform", "null")]%string)
  = Some (JObj [(py "Company Name", JStr (py "google"));
                (py "Role", JStr (py "software engineer"));
                (py "Platform", JNull)])
  /\ extract_job_details (sample_env null_platform_response) ready
                         sample_text [] (world_of [])
     = (Ok (empty_details, false,
            py "Error extracting details with Gemini AI: 'NoneType' object has no attribute 'strip'"),
        world_of [])
  /\ Company_Name empty_details <> title (py "google").
Proof. vm_compute. repeat split; discriminate. Qed.

(** C10. In the extraction of a block that parses to an object with text
    fields, the date of today is taken only when the object has no Date
    key; with the key present and an empty string as value the date of the
    record is empty, and the record is valid as soon as company and role
    are not empty. *)
Theorem date_default_only_when_absent (env : Env) (self : JobTracker)
        (text : str) (history : list Message) (response : str) (w : World)
        (block : str) (d : list (str * json)) (c r p st : str) :
  gemini_configured self = true ->
  generate_content env (extraction_prompt env text history) = Ok response ->
  re_search json_flags json_pattern (strip response) = Some block ->
  json_loads env block = Some (JObj d) ->
  text_field d "Company Name" [] = Some c ->
  text_field d "Role" [] = Some r ->
  text_field d "Platform" [] = Some p ->
  text_field d "Status" (py "Pending") = Some st ->
  (dict_get (py "Date") d = None ->
   exists details is_valid msg,
     extract_job_details env self text history w
     = (Ok (details, is_valid, msg), w)
     /\ Date details = strip (today env))
  /\ (dict_get (py "Date") d = Some (JStr []) ->
      exists details is_valid msg,
        extract_job_details env self text history w
        = (Ok (details, is_valid, msg), w)
        /\ Date details = []
        /\ (is_valid = true <-> strip c <> [] /\ strip r <> [])).
Proof.
  intros Hconf Hans Hblock Hjson Hc Hr Hp Hs. split; intros Hd.
  - assert (Ht : text_field d "Date" (today env) = Some (today env))
      by (unfold text_field; now rewrite Hd).
    eexists _, _, _. split.
    + exact (extract_fields env self text history response Hconf Hans w
                            block d c r (today env) p st Hblock Hjson
                            Hc Hr Ht Hp Hs).
    + reflexivity.
  - assert (Ht : text_field d "Date" (today env) = Some [])
      by (unfold text_field; now rewrite Hd).
    eexists _, _, _. split.
    + exact (extract_fields env self text history response Hconf Hans w
                            block d c r [] p st Hblock Hjson
                            Hc Hr Ht Hp Hs).
    + split; [reflexivity|].
      rewrite andb_true_iff, !title_nonempty, !nonempty_true. tauto.
Qed.

Lemma date_default_only_when_absent_witness :
  exists details msg,
    extract_job_details (sample_env empty_date_response) ready sample_text []
                        (world_of [])
    = (Ok (details, true, msg), world_of [])
    /\ Date details = [].
Proof.
  destruct (date_default_only_when_absent
              (sample_env empty_date_response) ready sample_text []
              empty_date_response (world_of [])
              (json_text [("Company Name", quoted "google");
                          ("Role", quoted "software engineer");
                          ("Date", quoted EmptyString)]%string)
              [(py "Company Name", JStr (py "google"));
               (py "Role", JStr (py "software engineer"));
               (py "Date", JStr [])]
              (py "google") (py "software engineer") [] (py "Pending"))
    as [_ H]; try reflexivity.
  destruct H as [details [is_valid [msg [E [Hd Hv]]]]]; [reflexivity|].
  assert (V : is_valid = true) by (apply Hv; split; discriminate).
  subst is_valid. now exists details, msg.
Defined.

(** ** The worksheet *)

Lemma request_ok (c : call) (w : World) :
  hd None (outages w) = None -> request c w = (Ok tt, logged c w).
Proof.
  unfold request. destruct (outages w) as [|[m|] o]; simpl;
    try discriminate; reflexivity.
Qed.

Lemma calm_head (w : World) : calm w = true -> hd None (outages w) = None.
Proof.
  unfold calm. destruct (outages w) as [|[m|] o]; simpl;
    try discriminate; reflexivity.
Qed.

Lemma calm_logged (c : call) (w : World) :
  calm w = true -> calm (logged c w) = true.
Proof.
  unfold calm, logged. simpl. destruct (outages w) as [|[m|] o]; simpl;
    try discriminate; auto.
Qed.

Lemma mem_spec (h : str) (l : list str) : mem h l = true <-> In h l.
Proof.
  unfold mem. rewrite existsb_exists. split.
  - intros [x [Hx E]]. apply str_eqb_eq in E. now subst.
  - intros H. exists h. split; [exact H | apply str_eqb_refl].
Qed.

Lemma headers_check (headers : list str) :
  forallb (fun h => mem h headers) expected_headers = true
  <-> incl expected_headers headers.
Proof.
  rewrite forallb_forall. unfold incl.
  split; intros H h Hh; apply mem_spec; auto.
Qed.

Lemma add_to_sheet_header (self : JobTracker) (details : Details)
      (w : World) :
  unconfigured self = false -> hd None (outages w) = None ->
  forallb (fun h => mem h (nth 0 (grid w) [])) expected_headers = false ->
  add_to_sheet self details w
  = (Ok (false, invalid_structure), logged (RowValues 1) w).
Proof.
  intros Hconf Hcall Hbad. unfold add_to_sheet. rewrite Hconf.
  unfold try_except, bind at 1, row_values, bind, read_grid, ret.
  rewrite (request_ok _ _ Hcall). cbn [grid logged Nat.sub].
  now rewrite Hbad.
Qed.

(** *** The keys of the records *)

Lemma dict_get_set {V} (k k' : str) (v : V) (d : list (str * V)) :
  dict_get k (dict_set k' v d)
  = if str_eqb k k' then Some v else dict_get k d.
Proof.
  induction d as [|[k0 v0] d IH]; [reflexivity|].
  cbn [dict_set dict_get].
  destruct (str_eqb k' k0) eqn:E; cbn [dict_get].
  - apply str_eqb_eq in E. subst k0. now destruct (str_eqb k k').
  - rewrite IH. destruct (str_eqb k k0) eqn:E0; [|reflexivity].
    apply str_eqb_eq in E0. subst k0.
    destruct (str_eqb k k') eqn:E1; [|reflexivity].
    apply str_eqb_eq in E1. subst k'. now rewrite str_eqb_refl in E.
Qed.

Lemma dict_get_other {V} (k : str) (items : list (str * V))
      (d : list (str * V)) :
  (forall kv, In kv items -> str_eqb k (fst kv) = false) ->
  dict_get k (fold_left (fun d kv => dict_set (fst kv) (snd kv) d) items d)
  = dict_get k d.
Proof.
  revert d. induction items as [|kv items IH]; intros d H; [reflexivity|].
  cbn [fold_left]. rewrite IH by (intros x Hx; apply H; now right).
  rewrite dict_get_set. now rewrite (H kv) by now left.
Qed.

Lemma combine_app_l {A B} (l1 l2 : list A) (c : list B) :
  combine (l1 ++ l2) c
  = combine l1 (firstn (length l1) c) ++ combine l2 (skipn (length l1) c).
Proof.
  revert c. induction l1 as [|a l1 IH]; intros c; [reflexivity|].
  destruct c as [|b c]; cbn [app combine length firstn skipn].
  - now destruct l2.
  - now rewrite IH.
Qed.

Lemma firstn_repeat {A} (x : A) (n m : nat) :
  n <= m -> firstn n (repeat x m) = repeat x n.
Proof.
  revert m. induction n as [|n IH]; intros m H; [reflexivity|].
  destruct m as [|m]; [lia|]. cbn [repeat firstn].
  now rewrite IH by lia.
Qed.

Lemma firstn_pad (n m : nat) (row : list str) :
  n <= m -> firstn n (pad m row) = firstn n (pad n row).
Proof.
  unfold pad. revert n m. induction row as [|c row IH]; intros n m H.
  - cbn [app length]. rewrite !Nat.sub_0_r.
    now rewrite !firstn_repeat by lia.
  - destruct n as [|n]; [reflexivity|]. destruct m as [|m]; [lia|].
    cbn [app length firstn Nat.sub]. now rewrite (IH n m) by lia.
Qed.

(** A key that is not the empty name reads the same cell whether or not
    the keys are filled with empty names. *)
Lemma get_padded (key : str) (keys row : list str) (m : nat) :
  key <> [] ->
  dict_get key (record_of (pad m keys) row)
  = dict_get key (record_of keys row).
Proof.
  intros Hkey. unfold record_of, dict_of. unfold pad at 1 3.
  rewrite combine_app_l, fold_left_app, dict_get_other.
  - rewrite (combine_firstn_l keys (map numericise (pad (length keys) row))).
    rewrite !firstn_map.
    rewrite (firstn_pad (length keys)
                        (length (keys ++ repeat [] (m - length keys))) row)
      by (rewrite length_app; lia).
    reflexivity.
  - intros [k v] Hin. apply in_combine_l in Hin. apply repeat_spec in Hin.
    cbn [fst]. subst k. unfold str_eqb.
    destruct (list_eq_dec ascii_dec key []); [contradiction | reflexivity].
Qed.

Lemma get_or_empty_keys (key : string) (g : list (list str))
      (row : list str) :
  py key <> [] ->
  get_or_empty (record_of (keys_of g) row) key
  = get_or_empty (record_of (hd [] g) row) key.
Proof.
  intros H. unfold get_or_empty, keys_of. now rewrite get_padded.
Qed.

Lemma company_is_keys (company_name : str) (g : list (list str))
      (row : list str) :
  company_is company_name (record_of (keys_of g) row)
  = row_is company_name (hd [] g) row.
Proof.
  unfold row_is, company_is. now rewrite get_or_empty_keys.
Qed.

Lemma is_duplicate_keys (d : Details) (g : list (list str))
      (row : list str) :
  is_duplicate d (record_of (keys_of g) row)
  = is_duplicate d (record_of (hd [] g) row).
Proof.
  unfold is_duplicate, date_is.
  rewrite !get_or_empty_keys by easy.
  unfold keys_of. now rewrite get_padded.
Qed.

Lemma reads_text_keys (key : string) (g : list (list str))
      (row : list str) :
  py key <> [] ->
  reads_text key (record_of (keys_of g) row)
  = reads_text key (record_of (hd [] g) row).
Proof.
  intros H. unfold reads_text. now rewrite get_or_empty_keys.
Qed.

Lemma matching_rows_keys (company_name : str) (start : nat)
      (g : list (list str)) :
  matching_rows company_name start (all_records g)
  = matching_rows company_name start (map (record_of (hd [] g)) (tl g)).
Proof.
  unfold all_records. revert start.
  induction (tl g) as [|row rows IH]; intros start; [reflexivity|].
  cbn [map matching_rows]. rewrite company_is_keys, !IH. reflexivity.
Qed.

Lemma company_texts_keys (g : list (list str)) :
  company_texts (all_records g)
  = forallb (fun row => reads_text "Company Name" (record_of (hd [] g) row))
            (tl g).
Proof.
  unfold company_texts, all_records.
  induction (tl g) as [|row rows IH]; [reflexivity|].
  cbn [map forallb]. now rewrite IH, reads_text_keys.
Qed.

Lemma width_row (g : list (list str)) (row : list str) :
  In row g -> length row <= width g.
Proof.
  induction g as [|r g IH]; [easy|]. cbn [width fold_right].
  intros [-> | H]; [lia|]. specialize (IH H). unfold width in IH. lia.
Qed.

Lemma width_least (g : list (list str)) (n : nat) :
  (forall row, In row g -> length row <= n) -> width g <= n.
Proof.
  induction g as [|r g IH]; intros H; cbn [width fold_right]; [lia|].
  assert (length r <= n) by (apply H; now left).
  assert (width g <= n) by (apply IH; intros row Hr; apply H; now right).
  unfold width in *. lia.
Qed.

Lemma width_app (g : list (list str)) (row : list str) :
  width (g ++ [row]) = Nat.max (width g) (length row).
Proof.
  induction g as [|r g IH]; cbn [app width fold_right]; [lia|].
  unfold width in IH. rewrite IH. lia.
Qed.

(** Appending a row that is no wider than row 1 keeps the keys. *)
Lemma keys_of_app (keys : list str) (rows : list (list str))
      (row : list str) :
  length row <= length keys ->
  keys_of ((keys :: rows) ++ [row]) = keys_of (keys :: rows).
Proof.
  intros H. unfold keys_of. rewrite width_app. cbn [app hd].
  assert (length keys <= width (keys :: rows))
    by (apply width_row; now left).
  f_equal. lia.
Qed.

Lemma all_records_app (keys : list str) (rows : list (list str))
      (row : list str) :
  length row <= length keys ->
  all_records ((keys :: rows) ++ [row])
  = all_records (keys :: rows) ++ [record_of (keys_of (keys :: rows)) row].
Proof.
  intros H. unfold all_records. rewrite (keys_of_app _ _ _ H).
  cbn [app tl]. now rewrite map_app.
Qed.

Lemma unique_app_l (l l' : list str) :
  unique (l ++ l') = true -> unique l = true.
Proof.
  induction l as [|k l IH]; [reflexivity|]. cbn [app unique].
  rewrite existsb_app, negb_orb. intros H.
  apply andb_true_iff in H as [H1 H2]. apply andb_true_iff in H1 as [H1 _].
  now rewrite H1, IH.
Qed.

(** Rows taken from a grid with distinct keys, under the same row 1, have
    distinct keys. *)
Lemma unique_keys_sub (keys : list str) (rows rows' : list (list str)) :
  incl rows' rows ->
  unique (keys_of (keys :: rows)) = true ->
  unique (keys_of (keys :: rows')) = true.
Proof.
  intros Hsub. unfold keys_of, pad. cbn [hd].
  assert (Hw : width (keys :: rows') <= width (keys :: rows)).
  { apply width_least. intros row [<- | Hr]; apply width_row;
      [now left | right; now apply Hsub]. }
  assert (Hk : length keys <= width (keys :: rows'))
    by (apply width_row; now left).
  replace (width (keys :: rows) - length keys)
    with ((width (keys :: rows') - length keys)
          + (width (keys :: rows) - width (keys :: rows'))) by lia.
  rewrite repeat_app, app_assoc. apply unique_app_l.
Qed.

(** *** The two loops over the records *)

Lemma numericise_text (s : str) : numeric s = false -> numericise s = Text s.
Proof. unfold numericise. now intros ->. Qed.

Lemma duplicate_test_cases (d : Details) (r : record) (w : World) :
  (exists m, duplicate_test d r w = (Raise (AttributeError m), w))
  \/ duplicate_test d r w = (Ok (is_duplicate d r), w).
Proof.
  unfold duplicate_test, is_duplicate, bind.
  destruct (get_or_empty r "Company Name") as [c|n];
    [|left; eexists; reflexivity].
  cbn [lower_of ret text_is].
  destruct (str_eqb (lower c) (lower (Company_Name d)));
    [|right; reflexivity].
  destruct (get_or_empty r "Role") as [o|n];
    [right; reflexivity | left; eexists; reflexivity].
Qed.

Lemma duplicate_test_safe (d : Details) (r : record) (w : World) :
  reads_text "Company Name" r = true ->
  negb (company_is (Company_Name d) r) || reads_text "Role" r = true ->
  duplicate_test d r w = (Ok (is_duplicate d r), w).
Proof.
  unfold duplicate_test, is_duplicate, company_is, reads_text, bind.
  destruct (get_or_empty r "Company Name") as [c|n]; [|discriminate].
  intros _. cbn [lower_of ret text_is].
  destruct (str_eqb (lower c) (lower (Company_Name d)));
    [|reflexivity].
  destruct (get_or_empty r "Role") as [o|n]; [reflexivity | discriminate].
Qed.

Lemma find_duplicate_cases (d : Details) (records : list record)
      (w : World) :
  (exists m, find_duplicate d records w = (Raise (AttributeError m), w))
  \/ find_duplicate d records w
     = (Ok (existsb (is_duplicate d) records), w).
Proof.
  induction records as [|r records IH]; [now right|].
  cbn [find_duplicate existsb]. unfold bind.
  destruct (duplicate_test_cases d r w) as [[m ->]| ->]; [left; eexists; reflexivity|].
  destruct (is_duplicate d r); [right; reflexivity | exact IH].
Qed.

Lemma find_duplicate_safe (d : Details) (records : list record)
      (w : World) :
  scan_safe d records = true ->
  find_duplicate d records w = (Ok (existsb (is_duplicate d) records), w).
Proof.
  unfold scan_safe. induction records as [|r records IH]; [reflexivity|].
  cbn [forallb find_duplicate existsb]. intros H.
  apply andb_true_iff in H as [Hr Hs]. apply andb_true_iff in Hr as [H1 H2].
  unfold bind at 1. rewrite (duplicate_test_safe d r w H1 H2).
  destruct (is_duplicate d r); [reflexivity | now apply IH].
Qed.

Lemma key_texts_safe (d : Details) (records : list record) :
  key_texts records = true -> scan_safe d records = true.
Proof.
  unfold key_texts, scan_safe. rewrite !forallb_forall. intros H r Hr.
  specialize (H r Hr). apply andb_true_iff in H as [-> ->].
  now rewrite orb_true_r.
Qed.

Lemma company_test_cases (company_name : str) (r : record) (w : World) :
  (exists m, company_test company_name r w = (Raise (AttributeError m), w))
  \/ (reads_text "Company Name" r = true
      /\ company_test company_name r w
         = (Ok (company_is company_name r), w)).
Proof.
  unfold company_test, company_is, reads_text, bind.
  destruct (get_or_empty r "Company Name") as [c|n];
    [now right | left; eexists; reflexivity].
Qed.

Lemma scan_rows_cases (company_name : str) (start : nat)
      (records : list record) (w : World) :
  (exists m,
      scan_rows company_name start records w = (Raise (AttributeError m), w))
  \/ (company_texts records = true
      /\ scan_rows company_name start records w
         = (Ok (matching_rows company_name start records), w)).
Proof.
  revert start. induction records as [|r records IH]; intros start;
    [now right|].
  cbn [scan_rows matching_rows]. unfold bind.
  destruct (company_test_cases company_name r w) as [[m ->]| [Hr ->]];
    [left; eexists; reflexivity|].
  destruct (IH (S start)) as [[m ->]| [Hs ->]]; [left; eexists; reflexivity|].
  right. unfold company_texts in *. cbn [forallb]. rewrite Hr, Hs.
  split; [reflexivity|]. now destruct (company_is company_name r).
Qed.

Lemma scan_rows_text (company_name : str) (start : nat)
      (records : list record) (w : World) :
  company_texts records = true ->
  scan_rows company_name start records w
  = (Ok (matching_rows company_name start records), w).
Proof.
  revert start. unfold company_texts.
  induction records as [|r records IH]; intros start H; [reflexivity|].
  cbn [forallb] in H. apply andb_true_iff in H as [Hr Hs].
  cbn [scan_rows matching_rows]. unfold bind at 1.
  destruct (company_test_cases company_name r w) as [[m E]| [_ ->]].
  - exfalso. revert E Hr. unfold company_test, reads_text, bind.
    destruct (get_or_empty r "Company Name"); discriminate.
  - unfold bind. rewrite (IH (S start) Hs).
    now destruct (company_is company_name r).
Qed.

Lemma get_all_records_cases (w : World) :
  (exists e, get_all_records w = (Raise e, logged GetAllRecords w))
  \/ (unique (keys_of (grid w)) = true
      /\ get_all_records w
         = (Ok (all_records (grid w)), logged GetAllRecords w)).
Proof.
  unfold get_all_records, bind, read_grid, request.
  destruct (outages w) as [|[m|] o]; try (left; eexists; reflexivity);
    cbn [grid logged]; destruct (unique (keys_of (grid w)));
    try (left; eexists; reflexivity); now right.
Qed.

Lemma get_all_records_ok (w : World) :
  hd None (outages w) = None -> unique (keys_of (grid w)) = true ->
  get_all_records w = (Ok (all_records (grid w)), logged GetAllRecords w).
Proof.
  intros Hcall Hu. unfold get_all_records, bind, read_grid.
  rewrite (request_ok _ _ Hcall). cbn [grid logged]. now rewrite Hu.
Qed.

Lemma add_to_sheet_calm (self : JobTracker) (details : Details) (w : World) :
  unconfigured self = false -> calm w = true ->
  forallb (fun h => mem h (nth 0 (grid w) [])) expected_headers = true ->
  unique (keys_of (grid w)) = true ->
  scan_safe details (all_records (grid w)) = true ->
  add_to_sheet self details w
  = let w2 := logged GetAllRecords (logged (RowValues 1) w) in
    if existsb (is_duplicate details) (all_records (grid w)) then
      (Ok (false, py "This job application already exists"), w2)
    else
      (Ok (true, py "Successfully added to your job tracker!"),
       set_grid (grid w ++ [row_of details])
                (logged (AppendRow (row_of details)) w2)).
Proof.
  intros Hconf Hcalm Hgood Hu Hsafe. unfold add_to_sheet. rewrite Hconf.
  unfold try_except, bind at 1, row_values, bind at 1, bind at 1,
    read_grid, ret.
  rewrite (request_ok _ _ (calm_head _ Hcalm)). cbn [grid logged Nat.sub].
  rewrite Hgood. cbn [negb]. unfold bind at 1.
  pose proof (calm_logged (RowValues 1) w Hcalm) as Hcalm1.
  rewrite (get_all_records_ok _ (calm_head _ Hcalm1) Hu).
  cbn [grid logged]. unfold bind at 1.
  rewrite (find_duplicate_safe _ _ _ Hsafe).
  destruct (existsb (is_duplicate details) (all_records (grid w)));
    [reflexivity|].
  unfold append_row, bind, read_grid, write_grid.
  pose proof (calm_logged GetAllRecords _ Hcalm1) as Hcalm2.
  rewrite (request_ok _ _ (calm_head _ Hcalm2)). reflexivity.
Qed.

(** C9. On a configured tracker whose read of the header row succeeds, when
    row 1 of the sheet lacks one of the five expected column names, wherever
    the others stand (in particular when it lacks Accept), add fails with
    the message on the invalid sheet structure; the sheet is unchanged and
    the only call made is the read of row 1, so nothing is appended. *)
Theorem add_invalid_header (self : JobTracker) (details : Details)
        (w : World) :
  unconfigured self = false -> hd None (outages w) = None ->
  ~ incl expected_headers (nth 0 (grid w) [])
  \/ ~ In (py "Accept") (nth 0 (grid w) []) ->
  exists w',
    add_to_sheet self details w = (Ok (false, invalid_structure), w')
    /\ grid w' = grid w
    /\ calls w' = calls w ++ [RowValues 1]
    /\ existsb is_append (calls w') = existsb is_append (calls w).
Proof.
  intros Hconf Hcall Hbad. exists (logged (RowValues 1) w). split.
  - apply add_to_sheet_header; auto.
    destruct (forallb _ expected_headers) eqn:E; [|reflexivity].
    apply headers_check in E. destruct Hbad as [H|H]; destruct H; auto.
    apply E. simpl. tauto.
  - cbn [grid calls logged]. repeat split.
    rewrite existsb_app. simpl. now rewrite !orb_false_r.
Qed.

Lemma add_invalid_header_witness :
  exists w',
    add_to_sheet ready google (world_of [short_headers; row_of meta])
    = (Ok (false, invalid_structure), w')
    /\ grid w' = [short_headers; row_of meta]
    /\ calls w' = [RowValues 1]
    /\ existsb is_append (calls w') = false.
Proof.
  apply (add_invalid_header ready google
                            (world_of [short_headers; row_of meta])).
  - reflexivity.
  - reflexivity.
  - right. vm_compute. intuition discriminate.
Defined.

(** The record read back from a row written by add, under the expected
    header row. *)
Lemma record_of_written (d : Details) :
  plain d = true ->
  exists p a,
    record_of expected_headers (row_of d)
    = [(py "Company Name", Text (Company_Name d)); (py "Role", Text (Role d));
       (py "Date", Text (Date d)); (py "Platform", p); (py "Accept", a)].
Proof.
  unfold plain. intros H.
  apply andb_true_iff in H as [H H3]. apply andb_true_iff in H as [H1 H2].
  apply negb_true_iff in H1, H2, H3.
  exists (numericise (Platform d)), (numericise (Accept d)).
  rewrite <- (numericise_text _ H1), <- (numericise_text _ H2),
    <- (numericise_text _ H3).
  reflexivity.
Qed.

Lemma is_duplicate_row (d1 d2 : Details) (g : list (list str)) :
  hd [] g = expected_headers -> plain d1 = true ->
  is_duplicate d2 (record_of (keys_of g) (row_of d1))
  = str_eqb (lower (Company_Name d1)) (lower (Company_Name d2))
    && str_eqb (lower (Role d1)) (lower (Role d2))
    && str_eqb (Date d1) (Date d2).
Proof.
  intros Hg H. rewrite is_duplicate_keys, Hg.
  destruct (record_of_written d1 H) as [p [a ->]]. reflexivity.
Qed.

Lemma written_row_texts (d : Details) (g : list (list str)) :
  hd [] g = expected_headers -> plain d = true ->
  reads_text "Company Name" (record_of (keys_of g) (row_of d)) = true
  /\ reads_text "Role" (record_of (keys_of g) (row_of d)) = true.
Proof.
  intros Hg H. rewrite !reads_text_keys, Hg by easy.
  destruct (record_of_written d H) as [p [a ->]]. now split.
Qed.

Lemma filter_none {A} (f : A -> bool) (l : list A) :
  existsb f l = false -> filter f l = [].
Proof.
  induction l as [|x l IH]; simpl; [reflexivity|].
  destruct (f x); simpl; [discriminate | exact IH].
Qed.

Lemma calm_after_add (details : Details) (w : World) :
  calm w = true ->
  calm (set_grid (grid w ++ [row_of details])
                 (logged (AppendRow (row_of details))
                         (logged GetAllRecords (logged (RowValues 1) w))))
  = true.
Proof.
  intros H. apply (calm_logged (RowValues 1)) in H.
  apply (calm_logged GetAllRecords) in H.
  now apply (calm_logged (AppendRow (row_of details))) in H.
Qed.

(** C1 (amended). On a configured tracker with no worksheet failure, a sheet
    whose row 1 is exactly the five expected column names in their order,
    whose keys (row 1, with the empty name for a column that only data rows
    reach) are pairwise distinct, in which no Company Name or Role cell
    reads as a number and no row has the dedup key of the record, and a
    record whose company, role and date do not read as numbers: a first add
    succeeds and appends the row of the record; a second add of a record
    with the same company and role up to case and the same date fails with
    the "already exists" message, makes no append call and leaves the sheet
    as it is; the sheet then holds exactly one row with that key. *)
Theorem add_twice (self : JobTracker) (d1 d2 : Details) (w : World)
        (rows : list (list str)) :
  unconfigured self = false -> calm w = true ->
  grid w = expected_headers :: rows ->
  unique (keys_of (grid w)) = true ->
  key_texts (all_records (grid w)) = true ->
  plain d1 = true ->
  existsb (is_duplicate d1) (all_records (grid w)) = false ->
  lower (Company_Name d2) = lower (Company_Name d1) ->
  lower (Role d2) = lower (Role d1) ->
  Date d2 = Date d1 ->
  exists w1 w2,
    add_to_sheet self d1 w
    = (Ok (true, py "Successfully added to your job tracker!"), w1)
    /\ grid w1 = grid w ++ [row_of d1]
    /\ add_to_sheet self d2 w1
       = (Ok (false, py "This job application already exists"), w2)
    /\ grid w2 = grid w1
    /\ calls w2 = calls w1 ++ [RowValues 1; GetAllRecords]
    /\ length (filter (is_duplicate d1) (all_records (grid w2))) = 1.
Proof.
  intros Hconf Hcalm Hgrid Hu Htexts Hplain Hfresh Hc Hr Hd.
  assert (Hhead : forall g, forallb (fun h => mem h
                    (nth 0 (expected_headers :: g) [])) expected_headers
                            = true) by reflexivity.
  assert (Hhd : hd [] (grid w) = expected_headers) by now rewrite Hgrid.
  assert (Hkeys : keys_of (grid w ++ [row_of d1]) = keys_of (grid w))
    by (rewrite Hgrid; apply keys_of_app; simpl; lia).
  assert (Hrec : all_records (grid w ++ [row_of d1])
                 = all_records (grid w)
                   ++ [record_of (keys_of (grid w)) (row_of d1)])
    by (rewrite Hgrid; apply all_records_app; simpl; lia).
  assert (Htexts1 : key_texts (all_records (grid w ++ [row_of d1])) = true).
  { rewrite Hrec. unfold key_texts in *. rewrite forallb_app, Htexts.
    cbn [forallb].
    destruct (written_row_texts d1 (grid w) Hhd Hplain) as [-> ->].
    reflexivity. }
  eexists _, _. split; [|split; [|split; [|split; [|split]]]].
  - rewrite add_to_sheet_calm; auto.
    + cbv zeta. rewrite Hfresh. reflexivity.
    + rewrite Hgrid. apply Hhead.
    + now apply key_texts_safe.
  - reflexivity.
  - rewrite add_to_sheet_calm; auto.
    + cbv zeta. cbn [grid set_grid logged]. rewrite Hrec, existsb_app.
      cbn [existsb]. rewrite (is_duplicate_row d1 d2 (grid w) Hhd Hplain).
      rewrite Hc, Hr, Hd, !str_eqb_refl.
      rewrite orb_true_r. reflexivity.
    + now apply calm_after_add.
    + cbn [grid set_grid logged]. rewrite Hgrid. apply Hhead.
    + cbn [grid set_grid logged]. now rewrite Hkeys.
    + apply key_texts_safe. exact Htexts1.
  - reflexivity.
  - cbn [calls logged set_grid]. now rewrite <- !app_assoc.
  - cbn [grid set_grid logged]. rewrite Hrec, filter_app.
    rewrite (filter_none _ _ Hfresh). cbn [filter app].
    rewrite (is_duplicate_row d1 d1 (grid w) Hhd Hplain), !str_eqb_refl.
    reflexivity.
Qed.

Lemma add_twice_witness :
  exists w1 w2,
    add_to_sheet ready google (world_of [expected_headers; row_of meta])
    = (Ok (true, py "Successfully added to your job tracker!"), w1)
    /\ grid w1 = [expected_headers; row_of meta; row_of google]
    /\ add_to_sheet ready google w1
       = (Ok (false, py "This job application already exists"), w2)
    /\ grid w2 = grid w1
    /\ calls w2 = calls w1 ++ [RowValues 1; GetAllRecords]
    /\ length (filter (is_duplicate google) (all_records (grid w2))) = 1.
Proof.
  apply (add_twice ready google google
                   (world_of [expected_headers; row_of meta])
                   [row_of meta]); reflexivity.
Defined.

Lemma add_twice_counterexample :
  (exists w1,
      add_to_sheet ready google (world_of [expected_headers; row_of google])
      = (Ok (false, py "This job application already exists"), w1))
  /\ (exists w1 w2,
         add_to_sheet ready google (world_of [swapped_headers])
         = (Ok (true, py "Successfully added to your job tracker!"), w1)
         /\ add_to_sheet ready google w1
            = (Ok (true, py "Successfully added to your job tracker!"), w2)
         /\ grid w2 = [swapped_headers; row_of google; row_of google])
  /\ (exists w1 w2,
         add_to_sheet ready numbered (world_of [expected_headers])
         = (Ok (true, py "Successfully added to your job tracker!"), w1)
         /\ add_to_sheet ready numbered w1
            = (Ok (false, saving_error (lower_error "int")), w2))
  /\ (exists w1 w2,
         add_to_sheet ready dated (world_of [expected_headers])
         = (Ok (true, py "Successfully added to your job tracker!"), w1)
         /\ add_to_sheet ready dated w1
            = (Ok (true, py "Successfully added to your job tracker!"), w2)
         /\ grid w2 = [expected_headers; row_of dated; row_of dated]).
Proof.
  split; [|split; [|split]].
  - eexists. vm_compute. reflexivity.
  - eexists _, _. split; [vm_compute; reflexivity|].
    split; vm_compute; reflexivity.
  - eexists _, _. split; vm_compute; reflexivity.
  - eexists _, _. split; [vm_compute; reflexivity|].
    split; vm_compute; reflexivity.
Qed.

(** ** Removal *)

Lemma insert_desc_last (x : nat) (l : list nat) :
  Forall (fun y => x < y) l -> insert_desc x l = l ++ [x].
Proof.
  induction 1 as [|y l Hy _ IH]; simpl; [reflexivity|].
  destruct (Nat.ltb_spec y x); [lia | now rewrite IH].
Qed.

Lemma matching_rows_above (company : str) (start : nat)
      (records : list record) :
  Forall (fun i => start <= i) (matching_rows company start records).
Proof.
  revert start. induction records as [|r records IH]; intros start; simpl.
  - constructor.
  - assert (H : Forall (fun i => start <= i)
                       (matching_rows company (S start) records)).
    { eapply Forall_impl; [|apply IH]. simpl. intros; lia. }
    destruct (company_is company r); [constructor; [lia | exact H] | exact H].
Qed.

(** The matching indices come in increasing order, so sorting them in
    reverse reverses them. *)
Lemma sorted_reverse_matching (company : str) (start : nat)
      (records : list record) :
  sorted_reverse (matching_rows company start records)
  = rev (matching_rows company start records).
Proof.
  revert start. induction records as [|r records IH]; intros start;
    [reflexivity|].
  simpl. destruct (company_is company r); [|apply IH].
  simpl. rewrite IH. apply insert_desc_last.
  apply Forall_forall. intros y Hy. apply in_rev in Hy.
  pose proof (matching_rows_above company (S start) records) as H.
  rewrite Forall_forall in H. apply H in Hy. lia.
Qed.

Lemma matching_rows_length (company : str) (keys : list str) (start : nat)
      (rows : list (list str)) :
  length (matching_rows company start (map (record_of keys) rows))
  = length (filter (row_is company keys) rows).
Proof.
  revert start. induction rows as [|r rows IH]; intros start; simpl;
    [reflexivity|].
  unfold row_is at 1. destruct (company_is company (record_of keys r));
    simpl; now rewrite IH.
Qed.

Lemma remove_nth_app {A} (pre : list A) (x : A) (l : list A) :
  remove_nth (length pre) (pre ++ x :: l) = pre ++ l.
Proof. induction pre as [|y pre IH]; simpl; [reflexivity | now rewrite IH]. Qed.

(** Deleting the matching rows from the last to the first leaves the rows
    that do not match, in their order. *)
Lemma delete_matching (company : str) (keys : list str)
      (rows pre : list (list str)) :
  fold_left (fun g i => remove_nth (i - 1) g)
            (rev (matching_rows company (S (length pre))
                                (map (record_of keys) rows)))
            (pre ++ rows)
  = pre ++ filter (fun row => negb (row_is company keys row)) rows.
Proof.
  revert pre. induction rows as [|r rows IH]; intros pre; [reflexivity|].
  cbn [map matching_rows filter]. unfold row_is at 1.
  assert (E : forall l, pre ++ r :: l = (pre ++ [r]) ++ l)
    by (intros; now rewrite <- app_assoc).
  assert (L : S (S (length pre)) = S (length (pre ++ [r])))
    by (rewrite length_app; simpl; lia).
  destruct (company_is company (record_of keys r)); cbn [negb].
  - cbn [rev]. rewrite fold_left_app, E, L, IH. cbn [fold_left].
    rewrite <- E. replace (S (length pre) - 1) with (length pre) by lia.
    apply remove_nth_app.
  - rewrite E, L, IH. now rewrite <- E.
Qed.

Lemma for_each_delete (idxs : list nat) (w : World) :
  calm w = true -> Forall (fun i => 1 <= i) idxs ->
  exists w',
    for_each idxs delete_rows w = (Ok tt, w')
    /\ grid w' = fold_left (fun g i => remove_nth (i - 1) g) idxs (grid w)
    /\ messages w' = messages w
    /\ calls w' = calls w ++ map DeleteRows idxs.
Proof.
  intros Hcalm Hpos. revert w Hcalm.
  induction Hpos as [|i idxs Hi _ IH]; intros w Hcalm.
  - exists w. simpl. now rewrite app_nil_r.
  - destruct i as [|i]; [lia|].
    set (w1 := set_grid (remove_nth i (grid w)) (logged (DeleteRows (S i)) w)).
    assert (Hcalm1 : calm w1 = true)
      by (apply (calm_logged (DeleteRows (S i)) w Hcalm)).
    destruct (IH w1 Hcalm1) as [w' [E [Hg [Hm Hc]]]].
    exists w'. split; [|split; [|split]].
    + cbn [for_each]. unfold bind at 1. unfold delete_rows, bind, read_grid.
      rewrite (request_ok _ _ (calm_head _ Hcalm)). exact E.
    + rewrite Hg. cbn [fold_left]. now replace (S i - 1) with i by lia.
    + rewrite Hm. reflexivity.
    + rewrite Hc. cbn [calls w1 set_grid logged map].
      now rewrite <- app_assoc.
Qed.




(** ** Computations that keep the history and never raise *)

Lemma quiet_ret {A} (a : A) : quiet (ret a).
Proof. intros w. reflexivity. Qed.

Lemma quiet_raise {A} (e : exn) : quiet (@raise A e).
Proof. intros w. reflexivity. Qed.

Lemma quiet_bind {A B} (m : M A) (k : A -> M B) :
  quiet m -> (forall a, quiet (k a)) -> quiet (bind m k).
Proof.
  intros Hm Hk w. unfold bind. specialize (Hm w).
  destruct (m w) as [[a|e] w']; simpl in *; [|exact Hm].
  now rewrite Hk.
Qed.

Lemma quiet_try {A} (body : M A) (catches : exn -> bool)
      (handler : exn -> M A) :
  quiet body -> (forall e, quiet (handler e)) ->
  quiet (try_except body catches handler).
Proof.
  intros Hb Hh w. unfold try_except. specialize (Hb w).
  destruct (body w) as [[a|e] w']; simpl in *; [exact Hb|].
  destruct (catches e); simpl; [now rewrite Hh | exact Hb].
Qed.

Lemma quiet_request (c : call) : quiet (request c).
Proof. intros w. unfold request. now destruct (outages w) as [|[m|] o]. Qed.

Lemma quiet_read_grid : quiet read_grid.
Proof. intros w. reflexivity. Qed.

Lemma quiet_write_grid (g : list (list str)) : quiet (write_grid g).
Proof. intros w. reflexivity. Qed.

Lemma quiet_generate (env : Env) (prompt : str) : quiet (generate env prompt).
Proof. intros w. reflexivity. Qed.

Lemma quiet_loads (env : Env) (s : str) : quiet (loads env s).
Proof. intros w. unfold loads. now destruct (json_loads env s). Qed.

Lemma quiet_get (v : json) (key : string) (default : json) :
  quiet (get v key default).
Proof. intros w. now destruct v. Qed.

Lemma quiet_strip_of (v : json) : quiet (strip_of v).
Proof. intros w. now destruct v. Qed.

Lemma quiet_for_each {A} (l : list A) (body : A -> M unit) :
  (forall x, quiet (body x)) -> quiet (for_each l body).
Proof.
  intros H. induction l as [|x l IH]; simpl.
  - apply quiet_ret.
  - apply quiet_bind; auto.
Qed.

Ltac quiet_step :=
  first
    [ apply quiet_ret | apply quiet_raise | apply quiet_request
    | apply quiet_read_grid | apply quiet_write_grid | apply quiet_generate
    | apply quiet_loads | apply quiet_get | apply quiet_strip_of
    | apply quiet_bind; [|intros]
    | apply quiet_try; [|intros]
    | apply quiet_for_each; intros
    | match goal with
      | |- quiet (if ?b then _ else _) => destruct b
      | |- quiet (match ?x with _ => _ end) => destruct x
      end ].

Lemma quiet_row_values (n : nat) : quiet (row_values n).
Proof. unfold row_values. repeat quiet_step. Qed.

Lemma quiet_get_all_records : quiet get_all_records.
Proof. unfold get_all_records. repeat quiet_step. Qed.

Lemma quiet_append_row (values : list str) : quiet (append_row values).
Proof. unfold append_row. repeat quiet_step. Qed.

Lemma quiet_delete_rows (index : nat) : quiet (delete_rows index).
Proof. unfold delete_rows. repeat quiet_step. Qed.

Lemma quiet_find_duplicate (details : Details) (records : list record) :
  quiet (find_duplicate details records).
Proof.
  intros w.
  now destruct (find_duplicate_cases details records w) as [[m ->]| ->].
Qed.

Lemma quiet_scan_rows (company_name : str) (start : nat)
      (records : list record) :
  quiet (scan_rows company_name start records).
Proof.
  intros w.
  now destruct (scan_rows_cases company_name start records w)
    as [[m ->]| [_ ->]].
Qed.

Lemma quiet_add_to_sheet (self : JobTracker) (details : Details) :
  quiet (add_to_sheet self details).
Proof.
  unfold add_to_sheet.
  repeat first [ apply quiet_row_values | apply quiet_get_all_records
               | apply quiet_find_duplicate | apply quiet_append_row
               | quiet_step ].
Qed.

Lemma quiet_remove_from_sheet (self : JobTracker) (company_name : str) :
  quiet (remove_from_sheet self company_name).
Proof.
  unfold remove_from_sheet.
  repeat first [ apply quiet_get_all_records | apply quiet_scan_rows
               | apply quiet_delete_rows | quiet_step ].
Qed.

Lemma quiet_extract_job_details (env : Env) (self : JobTracker) (text : str)
      (history : list Message) :
  quiet (extract_job_details env self text history).
Proof. unfold extract_job_details. repeat quiet_step. Qed.

Lemma quiet_get_ai_response (env : Env) (self : JobTracker) (prompt : str)
      (history : list Message) :
  quiet (get_ai_response env self prompt history).
Proof. unfold get_ai_response. repeat quiet_step. Qed.

Lemma total_ret {A} (a : A) : total (ret a).
Proof. intros w. now exists a. Qed.

(** [except Exception] with a handler that returns: nothing escapes. *)
Lemma total_try {A} (body : M A) (handler : exn -> M A) :
  (forall e, total (handler e)) -> total (try_except body Exception handler).
Proof.
  intros Hh w. unfold try_except.
  destruct (body w) as [[a|e] w']; simpl; [now exists a | apply Hh].
Qed.

Lemma total_add_to_sheet (self : JobTracker) (details : Details) :
  total (add_to_sheet self details).
Proof.
  unfold add_to_sheet. destruct (unconfigured self); [apply total_ret|].
  apply total_try. intros e. apply total_ret.
Qed.

Lemma total_remove_from_sheet (self : JobTracker) (company_name : str) :
  total (remove_from_sheet self company_name).
Proof.
  unfold remove_from_sheet. destruct (unconfigured self); [apply total_ret|].
  apply total_try. intros e. apply total_ret.
Qed.

Lemma total_extract_job_details (env : Env) (self : JobTracker) (text : str)
      (history : list Message) :
  total (extract_job_details env self text history).
Proof.
  unfold extract_job_details.
  destruct (negb (gemini_configured self)); [apply total_ret|].
  apply total_try. intros e. apply total_ret.
Qed.

Lemma total_get_ai_response (env : Env) (self : JobTracker) (prompt : str)
      (history : list Message) :
  total (get_ai_response env self prompt history).
Proof.
  unfold get_ai_response.
  destruct (negb (gemini_configured self)); [apply total_ret|].
  apply total_try. intros e. apply total_ret.
Qed.

Lemma run {A} (m : M A) (w : World) :
  total m -> quiet m ->
  exists a w', m w = (Ok a, w') /\ messages w' = messages w.
Proof.
  intros Ht Hq. destruct (Ht w) as [a Ha]. specialize (Hq w).
  destruct (m w) as [o w']. simpl in *. subst o. now exists a, w'.
Qed.

(** ** The turn loop *)

(** C8. Whatever the message, the state of the tracker, the answers of the
    model and of the parser and the failures scheduled for the worksheet,
    a turn returns without raising, and the history after it is the history
    before it, the user message, and one assistant message. *)
Theorem turn_appends_one_reply (env : Env) (job_tracker : JobTracker)
        (prompt : str) (w : World) :
  exists reply w',
    turn env job_tracker prompt w = (Ok tt, w')
    /\ messages w' = messages w ++ [user prompt; reply]
    /\ role reply = py "assistant".
Proof.
  assert (Two : forall (m : Message) (w1 : World),
             messages w1 = messages w ++ [user prompt] ->
             messages (said m w1) = messages w ++ [user prompt; m]).
  { intros m w1 H. cbn [messages said]. rewrite H. now rewrite <- app_assoc. }
  unfold turn, bind at 1. cbn [append_message].
  set (w0 := said (user prompt) w).
  assert (H0 : messages w0 = messages w ++ [user prompt]) by reflexivity.
  destruct (is_job_application prompt).
  - destruct (re_search remove_flags remove_pattern prompt) as [g|].
    + destruct (run (remove_from_sheet job_tracker (strip g)) w0
                    (total_remove_from_sheet _ _)
                    (quiet_remove_from_sheet _ _))
        as [[success message] [w1 [E Hm]]].
      unfold bind. rewrite E. eexists _, _. split; [reflexivity|].
      split; [apply Two; congruence | reflexivity].
    + eexists _, _. split; [reflexivity|].
      split; [now apply Two | reflexivity].
  - unfold bind at 1. cbn [get_messages].
    destruct (run (extract_job_details env job_tracker prompt (messages w0))
                  w0 (total_extract_job_details _ _ _ _)
                  (quiet_extract_job_details _ _ _ _))
      as [[[details is_valid] msg] [w1 [E Hm]]].
    unfold bind at 1. rewrite E. destruct is_valid.
    + destruct (run (add_to_sheet job_tracker details) w1
                    (total_add_to_sheet _ _) (quiet_add_to_sheet _ _))
        as [[success sheet_message] [w2 [E2 Hm2]]].
      unfold bind. rewrite E2. destruct success;
        (eexists _, _; split; [reflexivity|];
         split; [apply Two; congruence | reflexivity]).
    + eexists _, _. split; [reflexivity|].
      split; [apply Two; congruence | reflexivity].
  - unfold bind at 1. cbn [get_messages].
    destruct (run (get_ai_response env job_tracker prompt (messages w0)) w0
                  (total_get_ai_response _ _ _ _)
                  (quiet_get_ai_response _ _ _ _))
      as [response [w1 [E Hm]]].
    unfold bind. rewrite E. eexists _, _. split; [reflexivity|].
    split; [apply Two; congruence | reflexivity].
Qed.

(** C7 (amended). In the application branch of a turn, extraction returns
    a record, a validity flag and a message. When the flag is false the
    reply is the request for clarification with its example and carries no
    record. When it is true the add is run, and the reply carries the record
    exactly when the add succeeded: after a failed add the reply reports the
    issue and carries no record. *)
Theorem application_reply (env : Env) (job_tracker : JobTracker)
        (prompt : str) (w : World) :
  is_job_application prompt = Application ->
  let w0 := said (user prompt) w in
  exists details is_valid msg w1,
    extract_job_details env job_tracker prompt (messages w0) w0
    = (Ok (details, is_valid, msg), w1)
    /\ (is_valid = false ->
        exists w',
          turn env job_tracker prompt w = (Ok tt, w')
          /\ messages w'
             = messages w ++ [user prompt; assistant (clarify msg) None])
    /\ (is_valid = true ->
        exists success sheet_message w2 w',
          add_to_sheet job_tracker details w1
          = (Ok (success, sheet_message), w2)
          /\ turn env job_tracker prompt w = (Ok tt, w')
          /\ messages w'
             = messages w
                 ++ [user prompt;
                     if success
                     then assistant (recorded sheet_message) (Some details)
                     else assistant (not_saved sheet_message) None]).
Proof.
  intros Happ w0.
  assert (Two : forall (m : Message) (w1 : World),
             messages w1 = messages w ++ [user prompt] ->
             messages (said m w1) = messages w ++ [user prompt; m]).
  { intros m w1 H. cbn [messages said]. rewrite H. now rewrite <- app_assoc. }
  assert (H0 : messages w0 = messages w ++ [user prompt]) by reflexivity.
  destruct (run (extract_job_details env job_tracker prompt (messages w0))
                w0 (total_extract_job_details _ _ _ _)
                (quiet_extract_job_details _ _ _ _))
    as [[[details is_valid] msg] [w1 [E Hm]]].
  exists details, is_valid, msg, w1. split; [exact E|].
  assert (T : turn env job_tracker prompt w
              = (if is_valid then
                   r <- add_to_sheet job_tracker details ;;
                   let '(success, sheet_message) := r in
                   if success : bool then
                     append_message
                       (assistant (recorded sheet_message) (Some details))
                   else
                     append_message (assistant (not_saved sheet_message) None)
                 else append_message (assistant (clarify msg) None)) w1).
  { unfold turn, bind at 1. cbn [append_message]. fold w0. rewrite Happ.
    unfold bind at 1. cbn [get_messages]. unfold bind at 1. now rewrite E. }
  rewrite T. split; intros ->.
  - eexists. split; [reflexivity|]. apply Two. congruence.
  - destruct (run (add_to_sheet job_tracker details) w1
                  (total_add_to_sheet _ _) (quiet_add_to_sheet _ _))
      as [[success sheet_message] [w2 [E2 Hm2]]].
    exists success, sheet_message, w2. unfold bind. rewrite E2.
    destruct success; eexists; (split; [reflexivity|]);
      (split; [reflexivity|]); apply Two; congruence.
Qed.

Lemma application_reply_witness :
  exists w',
    turn (sample_env google_response) ready sample_text
         (world_of [expected_headers])
    = (Ok tt, w')
    /\ map job_details (messages w') = [None; Some google]
    /\ grid w' = [expected_headers; row_of google].
Proof.
  destruct (application_reply (sample_env google_response) ready sample_text
                              (world_of [expected_headers]) eq_refl)
    as [details [is_valid [msg [w1 [E [_ H]]]]]].
  vm_compute in E. injection E as <- <- <- <-.
  destruct (H eq_refl) as [success [sheet_message [w2 [w' [E2 [Et Hm]]]]]].
  vm_compute in E2. injection E2 as <- <- <-.
  exists w'. split; [exact Et|]. split.
  - rewrite Hm. reflexivity.
  - vm_compute in Et. injection Et as <-. reflexivity.
Defined.

Lemma application_reply_counterexample :
  let w := world_of [expected_headers; row_of google] in
  is_job_application sample_text = Application
  /\ (exists msg w1,
         extract_job_details (sample_env google_response) ready sample_text
                             [user sample_text] (said (user sample_text) w)
         = (Ok (google, true, msg), w1))
  /\ (exists w2,
         add_to_sheet ready google (said (user sample_text) w)
         = (Ok (false, py "This job application already exists"), w2))
  /\ exists w',
      turn (sample_env google_response) ready sample_text w = (Ok tt, w')
      /\ map job_details (messages w') = [None; None].
Proof.
  cbv zeta. split; [reflexivity|].
  split; [eexists _, _; vm_compute; reflexivity|].
  split; [eexists; vm_compute; reflexivity|].
  eexists. split; vm_compute; reflexivity.
Qed.

(** * Further properties *)

(** ** The removal pattern, read both ways *)

Lemma dot_no_newline (s : str) :
  forallb (class_ok remove_flags Dot) s = true -> ~ In newline s.
Proof.
  induction s as [|c s IH]; simpl; [tauto|].
  intros H. apply andb_true_iff in H as [Hc Hs].
  intros [E|Hin]; [|now apply IH].
  subst c. discriminate.
Qed.

Lemma lazy_plus_sound (ok : ascii -> bool) (k : str -> option str)
      (s g : str) :
  repeat1 ok PlusLazy true k s = Some g ->
  exists body rest g',
    s = body ++ rest /\ body <> [] /\ forallb ok body = true
    /\ k rest = Some g' /\ g = body ++ g'.
Proof.
  revert g. induction s as [|c s IH]; intros g H; [discriminate|].
  rewrite repeat1_cons in H. destruct (ok c) eqn:Ec; [|discriminate].
  cbn [keep] in H. destruct (k s) as [g1|] eqn:E.
  - simpl in H. injection H as <-. exists [c], s, g1. simpl.
    rewrite Ec. repeat split; easy.
  - change (orelse None ?y) with y in H.
    destruct (repeat1 ok PlusLazy true k s) as [g2|]; [|discriminate].
    simpl in H. injection H as <-.
    destruct (IH g2 eq_refl) as [body [rest [g' [-> [_ [Hb [Hk ->]]]]]]].
    exists (c :: body), rest, g'. simpl. rewrite Ec, Hb.
    repeat split; easy.
Qed.

Lemma after_row_inv (s g : str) :
  after_row s = Some g ->
  g = [] /\ exists W post, s = W ++ post /\ lower W = py "row".
Proof.
  unfold after_row. rewrite <- (app_nil_r (lits (py "row"))). intros H.
  apply match_lits_inv in H as [W [post [-> [HW Hg]]]].
  simpl in Hg. injection Hg as <-. apply lits_ci in HW.
  split; [reflexivity | now exists W, post].
Qed.

(** The text matched by the pattern at a position, and its group. *)
Lemma remove_pattern_inv (s g : str) :
  match_here remove_flags remove_pattern s = Some g ->
  exists R ws1 ws2 W post,
    s = R ++ ws1 ++ g ++ ws2 ++ W ++ post
    /\ lower R = py "remove" /\ lower W = py "row"
    /\ ws1 <> [] /\ forallb isspace ws1 = true
    /\ ws2 <> [] /\ forallb isspace ws2 = true
    /\ g <> [] /\ ~ In newline g.
Proof.
  intros H. unfold remove_pattern in H.
  apply match_lits_inv in H as [R [s1 [-> [HR H]]]].
  apply lits_ci in HR.
  change (after_remove s1 = Some g) in H. unfold after_remove in H.
  apply greedy_sound in H as [ws1 [r1 [-> [N1 [S1 H]]]]].
  apply lazy_plus_sound in H as [X [r2 [g' [-> [NX [DX [H ->]]]]]]].
  unfold after_target in H.
  apply greedy_sound in H as [ws2 [r3 [-> [N2 [S2 H]]]]].
  apply after_row_inv in H as [-> [W [post [-> HW]]]].
  rewrite app_nil_r. exists R, ws1, ws2, W, post.
  repeat split; auto. now apply dot_no_newline.
Qed.

(** X1. The classifier answers Remove exactly on the texts that hold, in
    any letter case, "remove", white space, a non-empty target without line
    break, white space and "row". *)
Theorem remove_iff_phrase (text : str) :
  is_job_application text = Remove <-> removal_phrase text.
Proof.
  unfold is_job_application. split.
  - destruct (re_search remove_flags remove_pattern text) as [g|] eqn:E.
    + intros _. apply search_sound in E as [pre [s [-> E]]].
      apply remove_pattern_inv in E
        as [R [ws1 [ws2 [W [post [-> H]]]]]].
      now exists pre, R, ws1, g, ws2, W, post.
    + destruct (existsb _ job_keywords); discriminate.
  - intros [pre [R [ws1 [X [ws2 [W [post
             [-> [HR [HW [N1 [S1 [N2 [S2 [NX HX]]]]]]]]]]]]]]].
    destruct (re_search remove_flags remove_pattern _) eqn:E; [reflexivity|].
    exfalso. revert E. apply search_complete.
    rewrite (remove_pattern_unfold R _ HR). unfold after_remove.
    apply plus_complete; auto; [discriminate|].
    apply plus_complete; auto; [discriminate | now apply no_newline_dot |].
    unfold after_target. apply plus_complete; auto; [discriminate|].
    now rewrite (after_row_ok W post HW).
Qed.

(** X2. In a turn classified as a removal the pattern always finds its
    target again, not empty and on one line: the reply is the message of
    remove for the trimmed target, never the usage hint. *)
Theorem removal_turn (env : Env) (job_tracker : JobTracker) (prompt : str)
        (w : World) :
  is_job_application prompt = Remove ->
  exists g success message w1,
    re_search remove_flags remove_pattern prompt = Some g
    /\ g <> [] /\ ~ In newline g
    /\ remove_from_sheet job_tracker (strip g) (said (user prompt) w)
       = (Ok (success, message), w1)
    /\ turn env job_tracker prompt w
       = (Ok tt, said (assistant message None) w1).
Proof.
  intros Hrem. pose proof Hrem as Hre. unfold is_job_application in Hre.
  destruct (re_search remove_flags remove_pattern prompt) as [g|] eqn:E;
    [clear Hre | destruct (existsb _ job_keywords); discriminate].
  destruct (run (remove_from_sheet job_tracker (strip g))
                (said (user prompt) w)
                (total_remove_from_sheet _ _) (quiet_remove_from_sheet _ _))
    as [[success message] [w1 [Er _]]].
  exists g, success, message, w1.
  pose proof E as Es. apply search_sound in Es as [pre [s [_ Es]]].
  apply remove_pattern_inv in Es as [R [ws1 [ws2 [W [post [_ H]]]]]].
  split; [reflexivity|]. split; [tauto|]. split; [tauto|].
  split; [exact Er|].
  unfold turn, bind at 1. cbn [append_message]. rewrite Hrem, E.
  unfold bind. now rewrite Er.
Qed.

Lemma removal_turn_witness :
  exists g success message w1,
    re_search remove_flags remove_pattern (py "Remove google row") = Some g
    /\ g <> [] /\ ~ In newline g
    /\ remove_from_sheet ready (strip g)
         (said (user (py "Remove google row"))
               (world_of [expected_headers; row_of google]))
       = (Ok (success, message), w1)
    /\ turn (sample_env plain_response) ready (py "Remove google row")
            (world_of [expected_headers; row_of google])
       = (Ok tt, said (assistant message None) w1).
Proof.
  apply (removal_turn (sample_env plain_response) ready
                      (py "Remove google row")
                      (world_of [expected_headers; row_of google])).
  reflexivity.
Defined.

(** ** Letter case *)

Lemma lower_char_idem (c : ascii) : lower_char (lower_char c) = lower_char c.
Proof. destruct c as [[] [] [] [] [] [] [] []]; reflexivity. Qed.

Lemma lower_upper_char (c : ascii) : lower_char (upper_char c) = lower_char c.
Proof. destruct c as [[] [] [] [] [] [] [] []]; reflexivity. Qed.

Lemma isspace_lower (c : ascii) : isspace (lower_char c) = isspace c.
Proof. destruct c as [[] [] [] [] [] [] [] []]; reflexivity. Qed.

Lemma newline_lower (c : ascii) :
  Ascii.eqb (lower_char c) newline = Ascii.eqb c newline.
Proof. destruct c as [[] [] [] [] [] [] [] []]; reflexivity. Qed.

Lemma lower_idem (s : str) : lower (lower s) = lower s.
Proof.
  unfold lower. rewrite map_map. apply map_ext. apply lower_char_idem.
Qed.

Lemma class_ok_lower (k : cclass) (c : ascii) :
  class_ok remove_flags k (lower_char c) = class_ok remove_flags k c.
Proof.
  destruct k; simpl.
  - now rewrite lower_char_idem.
  - apply isspace_lower.
  - now rewrite newline_lower.
Qed.

Lemma keep_lower (grp : bool) (c : ascii) (r : option str) :
  keep grp (lower_char c) (option_map lower r)
  = option_map lower (keep grp c r).
Proof. now destruct grp, r. Qed.

Lemma orelse_map {A B} (f : A -> B) (x y : option A) :
  orelse (option_map f x) (option_map f y) = option_map f (orelse x y).
Proof. now destruct x, y. Qed.

Lemma repeat1_lower (ok : ascii -> bool) (q : quant) (grp : bool)
      (k : str -> option str) (s : str) :
  (forall c, ok (lower_char c) = ok c) ->
  (forall r, k (lower r) = option_map lower (k r)) ->
  repeat1 ok q grp k (lower s) = option_map lower (repeat1 ok q grp k s).
Proof.
  intros Hok Hk. induction s as [|c s IH]; [reflexivity|].
  cbn [lower map]. fold (lower s). rewrite !repeat1_cons, Hok.
  destruct (ok c); [|reflexivity].
  rewrite <- keep_lower. f_equal.
  destruct q; rewrite ?IH, ?Hk, ?orelse_map; reflexivity.
Qed.

Lemma match_here_lower (p : list atom) (s : str) :
  match_here remove_flags p (lower s)
  = option_map lower (match_here remove_flags p s).
Proof.
  revert s. induction p as [|a p IH]; intros s; [reflexivity|].
  cbn [match_here]. unfold match_atom.
  assert (R : forall q, repeat1 (class_ok remove_flags (a_class a)) q
                                (a_group a) (match_here remove_flags p)
                                (lower s)
                        = option_map lower
                            (repeat1 (class_ok remove_flags (a_class a)) q
                                     (a_group a) (match_here remove_flags p)
                                     s))
    by (intros q; apply repeat1_lower; [apply class_ok_lower | exact IH]).
  destruct (a_quant a); rewrite ?R, ?IH, ?orelse_map; reflexivity.
Qed.

Lemma re_search_lower (p : list atom) (s : str) :
  re_search remove_flags p (lower s)
  = option_map lower (re_search remove_flags p s).
Proof.
  induction s as [|c s IH].
  - cbn [lower map re_search]. change [] with (lower []) at 1.
    rewrite match_here_lower. now destruct (match_here remove_flags p []).
  - cbn [lower map re_search]. fold (lower s).
    change (lower_char c :: lower s) with (lower (c :: s)).
    rewrite match_here_lower.
    destruct (match_here remove_flags p (c :: s)); [reflexivity | exact IH].
Qed.

Lemma classify_lower (text : str) :
  is_job_application (lower text) = is_job_application text.
Proof.
  unfold is_job_application. rewrite re_search_lower, lower_idem.
  now destruct (re_search remove_flags remove_pattern text).
Qed.

(** X3. The class of a message does not depend on the case of its letters:
    two texts that are equal once lowered are classified alike. *)
Theorem classify_ignores_case (t1 t2 : str) :
  lower t1 = lower t2 -> is_job_application t1 = is_job_application t2.
Proof.
  intros H. rewrite <- (classify_lower t1), <- (classify_lower t2).
  now rewrite H.
Qed.

Lemma classify_ignores_case_witness :
  is_job_application (py "REMOVE Google ROW")
  = is_job_application (py "remove google row").
Proof.
  apply (classify_ignores_case (py "REMOVE Google ROW")
                               (py "remove google row")).
  reflexivity.
Defined.

Lemma lower_title_from (b : bool) (s : str) :
  lower (title_from b s) = lower s.
Proof.
  revert b. induction s as [|c s IH]; intros b; [reflexivity|].
  cbn [title_from lower map]. fold (lower s) (lower (title_from (is_cased c) s)).
  rewrite IH. destruct b; now rewrite ?lower_char_idem, ?lower_upper_char.
Qed.

(** X4. For a company and a role written in ASCII, title-casing at
    extraction does not move the duplicate test: the record and its
    title-cased form are duplicates of the same sheet rows. *)
Theorem title_keeps_duplicates (c r d p a : str) (row : record) :
  is_ascii c = true -> is_ascii r = true ->
  is_duplicate (MkDetails (title c) (title r) d (title p) a) row
  = is_duplicate (MkDetails c r d p a) row.
Proof.
  intros _ _. unfold is_duplicate, text_is, title.
  cbn [Company_Name Role Date].
  now rewrite !lower_title_from.
Qed.

Lemma title_keeps_duplicates_witness :
  is_duplicate (MkDetails (title (py "google")) (title (py "software engineer"))
                          (py "2025-05-23") (title (py "linkedin"))
                          (py "Pending"))
               (record_of expected_headers (row_of google))
  = is_duplicate (MkDetails (py "google") (py "software engineer")
                            (py "2025-05-23") (py "linkedin") (py "Pending"))
                 (record_of expected_headers (row_of google)).
Proof.
  apply (title_keeps_duplicates (py "google") (py "software engineer")
                                (py "2025-05-23") (py "linkedin")
                                (py "Pending")); reflexivity.
Defined.
(** ** Extraction on every path *)

Lemma get_not_text {A} (d : list (str * json)) (key : string) (default : str)
      (k : str -> M A) (w : World) :
  text_field d key default = None ->
  exists m,
    (v <- get (JObj d) key (JStr default) ;; s' <- strip_of v ;; k s') w
    = (Raise (AttributeError m), w).
Proof.
  unfold text_field, bind, get, ret. intros H.
  destruct (dict_get (py key) d) as [[]|]; try discriminate;
    eexists; reflexivity.
Qed.

Lemma get_not_object {A} (v : json) (key : string) (default : json)
      (k : json -> M A) (w : World) :
  (forall d, v <> JObj d) ->
  exists m, (x <- get v key default ;; k x) w = (Raise (AttributeError m), w).
Proof.
  intros H. destruct v; try (eexists; reflexivity). now destruct (H items).
Qed.

Ltac next_field :=
  match goal with
  | |- context [bind (get (JObj ?d) ?key (JStr ?dflt))
                     (fun v => bind (strip_of v) ?k) ?w] =>
      let s := fresh "s" in
      let H := fresh "H" in
      let m := fresh "m" in
      destruct (text_field d key dflt) as [s|] eqn:H;
      [ rewrite (get_text d key dflt s k w H)
      | destruct (get_not_text d key dflt k w H) as [m ->] ]
  end.

(** X5. Extraction never raises and leaves the world as it is. A valid
    result always carries the success message and a company and a role that
    are not empty; every other message comes with the empty record and the
    flag false: no failure path returns a partly filled record. *)
Theorem extract_outcomes (env : Env) (self : JobTracker) (text : str)
        (history : list Message) (w : World) :
  exists details is_valid msg,
    extract_job_details env self text history w
    = (Ok (details, is_valid, msg), w)
    /\ (is_valid = true ->
        msg = py "Successfully extracted details"
        /\ Company_Name details <> [] /\ Role details <> [])
    /\ (msg <> py "Successfully extracted details" ->
        details = empty_details /\ is_valid = false).
Proof.
  assert (Fail : forall m,
             exists details is_valid msg,
               (Ok (empty_details, false, m), w)
               = (Ok (details, is_valid, msg), w)
               /\ (is_valid = true ->
                   msg = py "Successfully extracted details"
                   /\ Company_Name details <> [] /\ Role details <> [])
               /\ (msg <> py "Successfully extracted details" ->
                   details = empty_details /\ is_valid = false)).
  { intros m. exists empty_details, false, m.
    split; [reflexivity|]. split; [discriminate | tauto]. }
  unfold extract_job_details.
  destruct (gemini_configured self); cbn [negb]; [|apply Fail].
  unfold try_except at 1. unfold bind at 1. unfold generate.
  destruct (generate_content env (extraction_prompt env text history))
    as [response|e]; [|apply Fail].
  destruct (re_search json_flags json_pattern (strip response)) as [block|];
    [|apply Fail].
  unfold try_except. unfold bind at 1. unfold loads.
  destruct (json_loads env block) as [v|]; [|apply Fail].
  unfold ret at 1.
  assert (Obj : (exists d, v = JObj d) \/ forall d, v <> JObj d)
    by (destruct v; try (right; discriminate); left; eauto).
  destruct Obj as [[d ->]|Hv].
  2:{ match goal with
      | |- context [bind (get v ?key ?dflt) ?k w] =>
          destruct (get_not_object v key dflt k w Hv) as [m ->]
      end.
      apply Fail. }
  next_field; [|apply Fail].
  next_field; [|apply Fail].
  next_field; [|apply Fail].
  next_field; [|apply Fail].
  next_field; [|apply Fail].
  eexists _, _, _. split; [reflexivity|].
  cbn [Company_Name Role]. split.
  - intros Hv. apply andb_true_iff in Hv as [H5 H6].
    apply nonempty_true in H5, H6. auto.
  - intros Hm. now destruct Hm.
Qed.

(** ** The window on the history *)

Lemma last6_app (older recent : list Message) :
  6 <= length recent -> last6 (older ++ recent) = last6 recent.
Proof.
  intros H. unfold last6. rewrite length_app, skipn_app.
  rewrite (skipn_all2 older) by lia.
  cbn [app]. f_equal. lia.
Qed.

(** X6. Both prompts look at the last six messages only: once the history
    holds six messages, what came before them changes neither the extraction
    nor the conversational reply. *)
Theorem history_window (env : Env) (self : JobTracker) (text : str)
        (older recent : list Message) :
  6 <= length recent ->
  extract_job_details env self text (older ++ recent)
  = extract_job_details env self text recent
  /\ get_ai_response env self text (older ++ recent)
     = get_ai_response env self text recent.
Proof.
  intros H.
  unfold extract_job_details, get_ai_response, extraction_prompt,
    history_lines.
  now rewrite (last6_app older recent H).
Qed.

Lemma history_window_witness :
  let recent := repeat (user (py "hello")) 6 in
  extract_job_details (sample_env google_response) ready sample_text
                      ([assistant (py "old") None] ++ recent)
  = extract_job_details (sample_env google_response) ready sample_text recent
  /\ get_ai_response (sample_env google_response) ready sample_text
                     ([assistant (py "old") None] ++ recent)
     = get_ai_response (sample_env google_response) ready sample_text recent.
Proof.
  apply (history_window (sample_env google_response) ready sample_text
                        [assistant (py "old") None]
                        (repeat (user (py "hello")) 6)).
  simpl. lia.
Defined.

(** ** The add path under failures *)

Lemma request_cases (c : call) (w : World) :
  (exists m, request c w = (Raise (APIError m), logged c w))
  \/ request c w = (Ok tt, logged c w).
Proof.
  unfold request. destruct (outages w) as [|[m|] o]; eauto.
Qed.

(** X7. Whatever the worksheet answers, add never raises and is all or
    nothing: it reports success exactly when it has appended the row of the
    record, which needs a row 1 with the five names, none of them repeated,
    and no row that the duplicate test takes for a duplicate (a cell that
    reads as a number is never one); in every other case the sheet is as
    before. It only ever reads row 1, reads the records and appends, in that
    order. *)
Theorem add_appends_or_keeps (self : JobTracker) (details : Details)
        (w : World) :
  exists success msg w',
    add_to_sheet self details w = (Ok (success, msg), w')
    /\ grid w' = (if success then grid w ++ [row_of details] else grid w)
    /\ (success = true ->
        incl expected_headers (nth 0 (grid w) [])
        /\ unique (hd [] (grid w)) = true
        /\ existsb (is_duplicate details) (all_records (grid w)) = false)
    /\ exists n,
        calls w'
        = calls w
            ++ firstn n [RowValues 1; GetAllRecords;
                         AppendRow (row_of details)].
Proof.
  unfold add_to_sheet. destruct (unconfigured self).
  { exists false, (snd not_configured), w. repeat split; try easy.
    exists 0. simpl. now rewrite app_nil_r. }
  unfold try_except, bind at 1, row_values, bind at 1, bind at 1,
    read_grid, ret.
  destruct (request_cases (RowValues 1) w) as [[m ->]| ->].
  { eexists false, _, _. split; [reflexivity|]. repeat split; try easy.
    now exists 1. }
  cbn [grid logged Nat.sub].
  destruct (forallb (fun h => mem h (nth 0 (grid w) [])) expected_headers)
    eqn:Hh; cbn [negb].
  2:{ eexists false, _, _. split; [reflexivity|]. repeat split; try easy.
      now exists 1. }
  unfold bind at 1.
  destruct (get_all_records_cases (logged (RowValues 1) w))
    as [[m ->]| [Hu ->]].
  { eexists false, _, _. split; [reflexivity|]. repeat split; try easy.
    exists 2. cbn [calls logged firstn]. now rewrite <- app_assoc. }
  cbn [grid logged] in *. unfold bind at 1.
  destruct (find_duplicate_cases details (all_records (grid w))
              (logged GetAllRecords (logged (RowValues 1) w)))
    as [[m ->]| ->].
  { eexists false, _, _. split; [reflexivity|]. repeat split; try easy.
    exists 2. cbn [calls logged firstn]. now rewrite <- app_assoc. }
  destruct (existsb (is_duplicate details) (all_records (grid w))) eqn:Hd.
  { eexists false, _, _. split; [reflexivity|]. repeat split; try easy.
    exists 2. cbn [calls logged firstn]. now rewrite <- app_assoc. }
  unfold append_row, bind, read_grid, write_grid.
  destruct (request_cases (AppendRow (row_of details))
              (logged GetAllRecords (logged (RowValues 1) w)))
    as [[m E]| E];
    change [Company_Name details; Role details; Date details;
            Platform details; Accept details] with (row_of details);
    rewrite E.
  - eexists false, _, _. split; [reflexivity|]. repeat split; try easy.
    exists 3. cbn [calls logged firstn]. now rewrite <- !app_assoc.
  - eexists true, _, _. split; [reflexivity|]. repeat split.
    + now apply headers_check.
    + unfold keys_of, pad in Hu. exact (unique_app_l _ _ Hu).
    + exists 3. cbn [calls logged set_grid firstn]. now rewrite <- !app_assoc.
Qed.
(** ** The remove path under failures *)

Lemma delete_rows_cases (i : nat) (w : World) :
  (exists m,
      delete_rows (S i) w
      = (Raise (APIError m), logged (DeleteRows (S i)) w))
  \/ delete_rows (S i) w
     = (Ok tt, set_grid (remove_nth i (grid w)) (logged (DeleteRows (S i)) w)).
Proof.
  unfold delete_rows, bind, read_grid.
  destruct (request_cases (DeleteRows (S i)) w) as [[m ->]| ->]; eauto.
Qed.

Lemma for_each_delete_any (idxs : list nat) (w : World) :
  Forall (fun i => 1 <= i) idxs ->
  exists o w' j j',
    for_each idxs delete_rows w = (o, w')
    /\ grid w'
       = fold_left (fun g i => remove_nth (i - 1) g) (firstn j idxs) (grid w)
    /\ calls w' = calls w ++ map DeleteRows (firstn j' idxs)
    /\ (o = Ok tt \/ exists m, o = Raise (APIError m))
    /\ (o = Ok tt -> j = length idxs).
Proof.
  intros Hpos. revert w. induction Hpos as [|i idxs Hi _ IH]; intros w.
  - exists (Ok tt), w, 0, 0. simpl. rewrite app_nil_r. repeat split; auto.
  - destruct i as [|i]; [lia|].
    cbn [for_each]. unfold bind at 1.
    destruct (delete_rows_cases i w) as [[m ->]| ->].
    + exists (Raise (APIError m)), (logged (DeleteRows (S i)) w), 0, 1.
      repeat split; eauto. discriminate.
    + destruct (IH (set_grid (remove_nth i (grid w))
                             (logged (DeleteRows (S i)) w)))
        as [o [w' [j [j' [E [Hg [Hc [Ho Hj]]]]]]]].
      exists o, w', (S j), (S j'). rewrite E. repeat split; auto.
      * rewrite Hg. cbn [firstn fold_left grid set_grid logged].
        now replace (S i - 1) with i by lia.
      * rewrite Hc. cbn [firstn map calls set_grid logged].
        now rewrite <- app_assoc.
      * intros H. simpl. f_equal. auto.
Qed.

(** A tail of the matching indices is the list of matching indices of a
    tail of the records. *)
Lemma matching_rows_skipn (company : str) (t start : nat)
      (records : list record) :
  exists r1 r2,
    records = r1 ++ r2
    /\ skipn t (matching_rows company start records)
       = matching_rows company (start + length r1) r2.
Proof.
  revert t start. induction records as [|r records IH]; intros t start.
  - exists [], []. split; [reflexivity|]. now destruct t.
  - destruct t as [|t].
    + exists [], (r :: records). split; [reflexivity|].
      simpl length. now rewrite Nat.add_0_r.
    + cbn [matching_rows]. destruct (company_is company r) eqn:E.
      * cbn [skipn]. destruct (IH t (S start)) as [r1 [r2 [-> H]]].
        exists (r :: r1), r2. split; [reflexivity|].
        rewrite H. simpl length. f_equal. lia.
      * destruct (IH (S t) (S start)) as [r1 [r2 [-> H]]].
        exists (r :: r1), r2. split; [reflexivity|].
        rewrite H. simpl length. f_equal. lia.
Qed.

Lemma head_and_tail {A} (g : list A) : firstn 1 g ++ tl g = g.
Proof. now destruct g. Qed.

(** X8. Whatever the worksheet answers, remove never raises, never deletes
    row 1 and never deletes a row whose company differs: the data rows split
    into the rows kept as they are and the rows below them, of which those
    of the company are gone. On success no row is kept aside: every row of
    the company is gone. *)
Theorem remove_spares_other_rows (self : JobTracker) (company_name : str)
        (w : World) :
  let keys := hd [] (grid w) in
  exists success msg w' kept below,
    remove_from_sheet self company_name w = (Ok (success, msg), w')
    /\ tl (grid w) = kept ++ below
    /\ grid w'
       = firstn 1 (grid w) ++ kept
           ++ filter (fun row => negb (row_is company_name keys row)) below
    /\ (success = true -> kept = []).
Proof.
  intros keys.
  assert (Same : forall (msg : str) (w' : World),
             grid w' = grid w ->
             exists success msg0 w0 kept below,
               (Ok (false, msg), w') = (Ok (success, msg0), w0)
               /\ tl (grid w) = kept ++ below
               /\ grid w0
                  = firstn 1 (grid w) ++ kept
                      ++ filter (fun row =>
                                   negb (row_is company_name keys row)) below
               /\ (success = true -> kept = [])).
  { intros msg w' Hg. exists false, msg, w', (tl (grid w)), [].
    split; [reflexivity|]. split; [now rewrite app_nil_r|].
    split; [|discriminate].
    simpl. rewrite app_nil_r, Hg. symmetry. apply head_and_tail. }
  unfold remove_from_sheet. destruct (unconfigured self).
  { now apply Same. }
  unfold try_except, bind at 1.
  destruct (get_all_records_cases w) as [[m ->]| [_ ->]].
  { now apply Same. }
  unfold bind at 1.
  destruct (scan_rows_cases company_name 2 (all_records (grid w))
                            (logged GetAllRecords w)) as [[m ->]| [_ ->]].
  { now apply Same. }
  destruct (matching_rows company_name 2 (all_records (grid w)))
    as [|i rest] eqn:E.
  { now apply Same. }
  rewrite <- E. rewrite sorted_reverse_matching. unfold bind, ret.
  destruct (for_each_delete_any
              (rev (matching_rows company_name 2 (all_records (grid w))))
              (logged GetAllRecords w))
    as [o [w' [j [j' [Ef [Hg [_ [Ho Hj]]]]]]]].
  { apply Forall_forall. intros x Hx. apply in_rev in Hx.
    pose proof (matching_rows_above company_name 2 (all_records (grid w)))
      as H.
    rewrite Forall_forall in H. apply H in Hx. lia. }
  rewrite Ef. cbn [grid logged] in Hg. rewrite firstn_rev in Hg.
  assert (Shape : forall t,
             exists kept below,
               tl (grid w) = kept ++ below
               /\ fold_left (fun g i => remove_nth (i - 1) g)
                    (rev (skipn t (matching_rows company_name 2
                                                 (all_records (grid w)))))
                    (grid w)
                  = firstn 1 (grid w) ++ kept
                      ++ filter (fun row =>
                                   negb (row_is company_name keys row))
                                below
               /\ (t = 0 -> kept = [])).
  { intros t. rewrite matching_rows_keys.
    destruct (grid w) as [|k rows] eqn:G.
    { exists [], []. repeat split. simpl. now destruct t. }
    cbn [tl firstn hd] in *. subst keys.
    destruct t as [|t].
    - exists [], rows. split; [reflexivity|]. split; [|reflexivity].
      cbn [skipn app]. apply (delete_matching company_name k rows [k]).
    - destruct (matching_rows_skipn company_name (S t) 2
                                    (map (record_of k) rows))
        as [r1 [r2 [Hsplit Hskip]]].
      apply map_eq_app in Hsplit as [kept [below [-> [<- <-]]]].
      exists kept, below. split; [reflexivity|]. split; [|discriminate].
      rewrite Hskip, length_map.
      change (k :: kept ++ below) with (([k] ++ kept) ++ below).
      replace (2 + length kept) with (S (length ([k] ++ kept)))
        by (simpl; lia).
      rewrite delete_matching. now rewrite <- app_assoc. }
  destruct (Shape (length (matching_rows company_name 2
                                         (all_records (grid w))) - j))
    as [kept [below [Hs [Hf Hk]]]].
  rewrite Hf in Hg.
  destruct Ho as [-> | [m ->]].
  - eexists true, _, w', kept, below. split; [reflexivity|].
    repeat split; auto. intros _. apply Hk.
    rewrite (Hj eq_refl), length_rev. lia.
  - eexists false, _, w', kept, below. split; [reflexivity|].
    repeat split; auto. discriminate.
Qed.

Lemma sorted_snoc {A} (R : A -> A -> Prop) (l : list A) (x : A) :
  StronglySorted R l -> Forall (fun y => R y x) l ->
  StronglySorted R (l ++ [x]).
Proof.
  induction 1 as [|a l Hs IH Ha]; intros Hx; simpl.
  - repeat constructor.
  - inversion Hx; subst. constructor; [now apply IH|].
    apply Forall_app. split; [exact Ha | now constructor].
Qed.

Lemma rev_matching_sorted (company : str) (start : nat)
      (records : list record) :
  StronglySorted (fun a b => b < a)
                 (rev (matching_rows company start records)).
Proof.
  revert start. induction records as [|r records IH]; intros start; simpl.
  - constructor.
  - destruct (company_is company r); [|apply IH].
    simpl. apply sorted_snoc; [apply IH|].
    apply Forall_forall. intros y Hy. apply in_rev in Hy.
    pose proof (matching_rows_above company (S start) records) as H.
    rewrite Forall_forall in H. apply H in Hy. lia.
Qed.

(** X9. An unconfigured tracker makes no worksheet call in remove. A
    configured one makes one read of the records followed by deletions only,
    at row indices that strictly decrease and are never below 2: a deletion
    never shifts a row that is still to be deleted, and row 1 is never
    deleted. *)
Theorem remove_deletes_downwards (self : JobTracker) (company_name : str)
        (w : World) :
  exists r w',
    remove_from_sheet self company_name w = (Ok r, w')
    /\ (unconfigured self = true -> calls w' = calls w)
    /\ (unconfigured self = false ->
        exists idxs,
          calls w' = calls w ++ GetAllRecords :: map DeleteRows idxs
          /\ StronglySorted (fun a b => b < a) idxs
          /\ Forall (fun i => 2 <= i) idxs).
Proof.
  unfold remove_from_sheet. destruct (unconfigured self).
  { eexists _, w. split; [reflexivity|]. split; [reflexivity|discriminate]. }
  assert (Read : forall idxs (w' : World),
             StronglySorted (fun a b => b < a) idxs ->
             Forall (fun i => 2 <= i) idxs ->
             calls w' = calls (logged GetAllRecords w) ++ map DeleteRows idxs ->
             (false = true -> calls w' = calls w)
             /\ (false = false ->
                 exists idxs0,
                   calls w' = calls w ++ GetAllRecords :: map DeleteRows idxs0
                   /\ StronglySorted (fun a b => b < a) idxs0
                   /\ Forall (fun i => 2 <= i) idxs0)).
  { intros idxs w' Hs Hf Hc. split; [discriminate|]. intros _.
    exists idxs. repeat split; auto.
    rewrite Hc. cbn [calls logged]. now rewrite <- app_assoc. }
  assert (Read0 : (false = true -> calls (logged GetAllRecords w) = calls w)
                  /\ (false = false ->
                      exists idxs0,
                        calls (logged GetAllRecords w)
                        = calls w ++ GetAllRecords :: map DeleteRows idxs0
                        /\ StronglySorted (fun a b => b < a) idxs0
                        /\ Forall (fun i => 2 <= i) idxs0)).
  { apply (Read []); [constructor | constructor |].
    simpl. now rewrite app_nil_r. }
  unfold try_except, bind at 1.
  destruct (get_all_records_cases w) as [[m ->]| [_ ->]].
  { eexists _, _. split; [reflexivity | exact Read0]. }
  unfold bind at 1.
  destruct (scan_rows_cases company_name 2 (all_records (grid w))
                            (logged GetAllRecords w)) as [[m ->]| [_ ->]].
  { eexists _, _. split; [reflexivity | exact Read0]. }
  destruct (matching_rows company_name 2 (all_records (grid w)))
    as [|i rest] eqn:E.
  { eexists _, _. split; [reflexivity | exact Read0]. }
  rewrite <- E. rewrite sorted_reverse_matching. unfold bind, ret.
  destruct (for_each_delete_any
              (rev (matching_rows company_name 2 (all_records (grid w))))
              (logged GetAllRecords w))
    as [o [w' [j [j' [Ef [_ [Hc [Ho _]]]]]]]].
  { apply Forall_forall. intros x Hx. apply in_rev in Hx.
    pose proof (matching_rows_above company_name 2 (all_records (grid w)))
      as H.
    rewrite Forall_forall in H. apply H in Hx. lia. }
  rewrite Ef. rewrite firstn_rev in Hc.
  destruct (matching_rows_skipn company_name
              (length (matching_rows company_name 2 (all_records (grid w)))
               - j') 2 (all_records (grid w)))
    as [r1 [r2 [_ Hskip]]].
  rewrite Hskip in Hc.
  assert (H : (false = true -> calls w' = calls w)
              /\ (false = false ->
                  exists idxs0,
                    calls w' = calls w ++ GetAllRecords :: map DeleteRows idxs0
                    /\ StronglySorted (fun a b => b < a) idxs0
                    /\ Forall (fun i => 2 <= i) idxs0)).
  { apply (Read _ w' (rev_matching_sorted company_name (2 + length r1) r2));
      [|exact Hc].
    apply Forall_forall. intros x Hx. apply in_rev in Hx.
    pose proof (matching_rows_above company_name (2 + length r1) r2) as H.
    rewrite Forall_forall in H. apply H in Hx. lia. }
  destruct Ho as [-> | [m ->]]; eexists _, w';
    (split; [reflexivity | exact H]).
Qed.
(** ** Calm worksheets stay calm *)

Lemma calm_ret {A} (a : A) : keeps_calm (ret a).
Proof. intros w H. exact H. Qed.

Lemma calm_raise {A} (e : exn) : keeps_calm (@raise A e).
Proof. intros w H. exact H. Qed.

Lemma calm_bind {A B} (m : M A) (k : A -> M B) :
  keeps_calm m -> (forall a, keeps_calm (k a)) -> keeps_calm (bind m k).
Proof.
  intros Hm Hk w H. unfold bind. specialize (Hm w H).
  destruct (m w) as [[a|e] w']; simpl in *; [|exact Hm].
  now apply Hk.
Qed.

Lemma calm_try {A} (body : M A) (catches : exn -> bool)
      (handler : exn -> M A) :
  keeps_calm body -> (forall e, keeps_calm (handler e)) ->
  keeps_calm (try_except body catches handler).
Proof.
  intros Hb Hh w H. unfold try_except. specialize (Hb w H).
  destruct (body w) as [[a|e] w']; simpl in *; [exact Hb|].
  destruct (catches e); simpl; [now apply Hh | exact Hb].
Qed.

Lemma calm_request (c : call) : keeps_calm (request c).
Proof.
  intros w H. pose proof (calm_logged c w H) as L. unfold request.
  now destruct (outages w) as [|[m|] o].
Qed.

Lemma calm_read_grid : keeps_calm read_grid.
Proof. intros w H. exact H. Qed.

Lemma calm_write_grid (g : list (list str)) : keeps_calm (write_grid g).
Proof. intros w H. exact H. Qed.

Lemma calm_for_each {A} (l : list A) (body : A -> M unit) :
  (forall x, keeps_calm (body x)) -> keeps_calm (for_each l body).
Proof.
  intros H. induction l as [|x l IH]; simpl.
  - apply calm_ret.
  - apply calm_bind; auto.
Qed.

Lemma calm_find_duplicate (details : Details) (records : list record) :
  keeps_calm (find_duplicate details records).
Proof.
  intros w H.
  now destruct (find_duplicate_cases details records w) as [[m ->]| ->].
Qed.

Lemma calm_scan_rows (company_name : str) (start : nat)
      (records : list record) :
  keeps_calm (scan_rows company_name start records).
Proof.
  intros w H.
  now destruct (scan_rows_cases company_name start records w)
    as [[m ->]| [_ ->]].
Qed.

Ltac calm_step :=
  first
    [ apply calm_ret | apply calm_raise | apply calm_request
    | apply calm_find_duplicate | apply calm_scan_rows
    | apply calm_read_grid | apply calm_write_grid
    | apply calm_bind; [|intros]
    | apply calm_try; [|intros]
    | apply calm_for_each; intros
    | match goal with
      | |- keeps_calm (if ?b then _ else _) => destruct b
      | |- keeps_calm (match ?x with _ => _ end) => destruct x
      end ].

Lemma calm_add_to_sheet (self : JobTracker) (details : Details) :
  keeps_calm (add_to_sheet self details).
Proof.
  unfold add_to_sheet, row_values, get_all_records, append_row.
  repeat calm_step.
Qed.

Lemma calm_remove_from_sheet (self : JobTracker) (company_name : str) :
  keeps_calm (remove_from_sheet self company_name).
Proof.
  unfold remove_from_sheet, get_all_records.
  repeat first [ calm_step | unfold delete_rows ].
Qed.

(** ** Remove and add on a calm worksheet *)

Lemma remove_from_sheet_calm (self : JobTracker) (company_name : str)
      (w : World) :
  unconfigured self = false -> calm w = true ->
  unique (keys_of (grid w)) = true ->
  company_texts (all_records (grid w)) = true ->
  let keys := hd [] (grid w) in
  let n := length (filter (row_is company_name keys) (tl (grid w))) in
  exists w',
    remove_from_sheet self company_name w
    = (Ok (if 0 <? n then (true, removed_message n company_name)
           else (false, none_found_message company_name)), w')
    /\ grid w'
       = firstn 1 (grid w)
           ++ filter (fun row => negb (row_is company_name keys row))
                     (tl (grid w))
    /\ calm w' = true.
Proof.
  intros Hconf Hcalm Hu Htexts keys n.
  pose proof (calm_remove_from_sheet self company_name w Hcalm) as Hafter.
  assert (Hlen : length (matching_rows company_name 2 (all_records (grid w)))
                 = n) by (rewrite matching_rows_keys;
                          apply matching_rows_length).
  assert (Hkeep : n = 0 ->
                  filter (fun row => negb (row_is company_name keys row))
                         (tl (grid w)) = tl (grid w)).
  { intros Hn. unfold n in Hn. apply length_zero_iff_nil in Hn.
    revert Hn. generalize (tl (grid w)).
    induction l as [|x l IHl]; simpl; [reflexivity|].
    destruct (row_is company_name keys x); simpl; [discriminate|].
    intros H. now rewrite IHl. }
  clearbody n.
  assert (Main : exists w',
             remove_from_sheet self company_name w
             = (Ok (if 0 <? n then (true, removed_message n company_name)
                    else (false, none_found_message company_name)), w')
             /\ grid w'
                = firstn 1 (grid w)
                    ++ filter (fun row => negb (row_is company_name keys row))
                              (tl (grid w))).
  { unfold remove_from_sheet. rewrite Hconf.
    unfold try_except, bind at 1.
    rewrite (get_all_records_ok _ (calm_head _ Hcalm) Hu).
    unfold bind at 1. rewrite (scan_rows_text _ _ _ _ Htexts).
    destruct (matching_rows company_name 2 (all_records (grid w)))
      as [|i rest] eqn:E.
    - simpl in Hlen. subst n. cbn [Nat.ltb Nat.leb].
      eexists. split; [reflexivity|]. cbn [grid logged].
      rewrite Hkeep by reflexivity. symmetry. apply head_and_tail.
    - assert (Hn : 0 < n) by (simpl in Hlen; lia).
      assert (Hpos : (0 <? n) = true) by now apply Nat.ltb_lt.
      rewrite Hpos, Hlen, <- E.
      pose proof (calm_logged GetAllRecords w Hcalm) as Hcalm1.
      destruct (for_each_delete
                  (sorted_reverse
                     (matching_rows company_name 2 (all_records (grid w))))
                  (logged GetAllRecords w) Hcalm1) as [w' [Ed [Hg _]]].
      { rewrite sorted_reverse_matching. apply Forall_forall.
        intros x Hx. apply in_rev in Hx.
        pose proof (matching_rows_above company_name 2 (all_records (grid w)))
          as H.
        rewrite Forall_forall in H. apply H in Hx. lia. }
      exists w'. unfold bind, ret. rewrite Ed.
      split; [reflexivity|].
      rewrite Hg, sorted_reverse_matching, matching_rows_keys. cbn [grid logged].
      destruct (grid w) as [|k rows] eqn:G; [reflexivity|].
      cbn [tl firstn hd] in *. unfold keys.
      apply (delete_matching company_name k rows [k]). }
  destruct Main as [w' [E G]]. exists w'.
  split; [exact E|]. split; [exact G|].
  rewrite E in Hafter. exact Hafter.
Qed.

Lemma filter_out_twice {A} (f : A -> bool) (l : list A) :
  filter f (filter (fun x => negb (f x)) l) = [].
Proof.
  induction l as [|x l IH]; simpl; [reflexivity|].
  destruct (f x) eqn:E; simpl; [exact IH | now rewrite E].
Qed.

Lemma forallb_filter {A} (f g : A -> bool) (l : list A) :
  forallb f l = true -> forallb f (filter g l) = true.
Proof.
  induction l as [|x l IH]; simpl; [reflexivity|].
  intros H. apply andb_true_iff in H as [Hx Hl].
  destruct (g x); simpl; [rewrite Hx|]; auto.
Qed.

(** X10. On a configured tracker with a calm worksheet whose keys (row 1,
    with the empty name for a column that only data rows reach) are
    pairwise distinct and whose Company Name cells do not read as numbers,
    a second remove of the same company finds nothing: it reports "No
    application found" and leaves the sheet as the first remove left it. *)
Theorem remove_twice (self : JobTracker) (company_name : str) (w : World) :
  unconfigured self = false -> calm w = true ->
  unique (keys_of (grid w)) = true ->
  company_texts (all_records (grid w)) = true ->
  exists r w1 w2,
    remove_from_sheet self company_name w = (Ok r, w1)
    /\ remove_from_sheet self company_name w1
       = (Ok (false, none_found_message company_name), w2)
    /\ grid w2 = grid w1.
Proof.
  intros Hconf Hcalm Hu Htexts.
  destruct (remove_from_sheet_calm self company_name w Hconf Hcalm Hu Htexts)
    as [w1 [E1 [G1 C1]]].
  assert (Hu1 : unique (keys_of (grid w1)) = true).
  { rewrite G1. destruct (grid w) as [|k rows]; [reflexivity|].
    cbn [firstn tl hd app] in *. apply (unique_keys_sub k rows); [|exact Hu].
    intros row Hrow. now apply filter_In in Hrow. }
  assert (Htexts1 : company_texts (all_records (grid w1)) = true).
  { rewrite company_texts_keys in *. rewrite G1.
    destruct (grid w) as [|k rows]; [reflexivity|].
    cbn [firstn tl hd app] in *. now apply forallb_filter. }
  destruct (remove_from_sheet_calm self company_name w1 Hconf C1 Hu1 Htexts1)
    as [w2 [E2 [G2 _]]].
  assert (Gone : filter (row_is company_name (hd [] (grid w1)))
                        (tl (grid w1)) = []).
  { rewrite G1. destruct (grid w) as [|k rows]; [reflexivity|].
    cbn [firstn tl hd app]. apply filter_out_twice. }
  rewrite Gone in E2. cbn [length Nat.ltb Nat.leb] in E2.
  eexists _, w1, w2. split; [exact E1|]. split; [exact E2|].
  rewrite G2.
  assert (K : filter (fun row => negb (row_is company_name
                                               (hd [] (grid w1)) row))
                     (tl (grid w1)) = tl (grid w1)).
  { revert Gone. generalize (tl (grid w1)).
    induction l as [|x l IHl]; simpl; [reflexivity|].
    destruct (row_is company_name (hd [] (grid w1)) x); simpl;
      [discriminate|].
    intros H. now rewrite IHl. }
  rewrite K. apply head_and_tail.
Qed.

Lemma remove_twice_witness :
  exists r w1 w2,
    remove_from_sheet ready (py "google")
                      (world_of [expected_headers; row_of google;
                                 row_of meta])
    = (Ok r, w1)
    /\ remove_from_sheet ready (py "google") w1
       = (Ok (false, none_found_message (py "google")), w2)
    /\ grid w2 = grid w1.
Proof.
  apply (remove_twice ready (py "google")
                      (world_of [expected_headers; row_of google;
                                 row_of meta])); reflexivity.
Defined.

Lemma row_is_written (company_name : str) (d : Details) :
  plain d = true ->
  row_is company_name expected_headers (row_of d)
  = str_eqb (lower (Company_Name d)) (lower company_name).
Proof.
  intros H. unfold row_is.
  destruct (record_of_written d H) as [p [a ->]]. reflexivity.
Qed.

Lemma company_is_lower (c1 c2 : str) (r : record) :
  lower c1 = lower c2 -> company_is c1 r = company_is c2 r.
Proof.
  intros H. unfold company_is, text_is.
  destruct (get_or_empty r "Company Name"); [now rewrite H | reflexivity].
Qed.

Lemma duplicate_has_company (company_name : str) (d : Details)
      (r : record) :
  lower company_name = lower (Company_Name d) ->
  is_duplicate d r = true -> company_is company_name r = true.
Proof.
  intros H. rewrite (company_is_lower _ _ r H). unfold is_duplicate.
  intros E. apply andb_true_iff in E as [E _].
  now apply andb_true_iff in E as [E _].
Qed.

Lemma filter_keeps_all {A} (f : A -> bool) (l : list A) :
  existsb f l = false -> filter (fun x => negb (f x)) l = l.
Proof.
  induction l as [|x l IH]; simpl; [reflexivity|].
  destruct (f x); simpl; [discriminate|]. intros H. now rewrite IH.
Qed.

Lemma company_of_rows (c1 c2 : str) (g : list (list str)) :
  lower c1 = lower c2 ->
  existsb (company_is c2) (all_records g)
  = existsb (row_is c1 (hd [] g)) (tl g).
Proof.
  intros H. unfold all_records.
  induction (tl g) as [|row rows IH]; [reflexivity|].
  cbn [map existsb]. rewrite IH, company_is_keys. unfold row_is.
  now rewrite (company_is_lower _ _ _ H).
Qed.

(** Where no record has the company of the details, the duplicate loop
    never reaches a role. *)
Lemma absent_company_safe (d : Details) (records : list record) :
  company_texts records = true ->
  existsb (company_is (Company_Name d)) records = false ->
  scan_safe d records = true.
Proof.
  unfold company_texts, scan_safe.
  induction records as [|r records IH]; simpl; [reflexivity|].
  intros Ht He. apply andb_true_iff in Ht as [-> Ht].
  apply orb_false_iff in He as [-> He]. simpl. auto.
Qed.

(** X11. Add then remove is a round trip. On a configured tracker with a
    calm worksheet and the expected row 1, when the keys of the sheet
    (row 1, with the empty name for a column that only data rows reach) are
    pairwise distinct, no Company Name cell of the sheet reads as a number,
    no row of the sheet has the company of the record, and company, role and
    date of the record do not read as numbers, adding the record and then
    removing its company (written in any letter case) removes one row and
    gives the sheet back as it was. *)
Theorem add_then_remove (self : JobTracker) (details : Details)
        (company_name : str) (w : World) (rows : list (list str)) :
  unconfigured self = false -> calm w = true ->
  grid w = expected_headers :: rows ->
  unique (keys_of (grid w)) = true ->
  company_texts (all_records (grid w)) = true ->
  plain details = true ->
  lower company_name = lower (Company_Name details) ->
  existsb (row_is company_name expected_headers) rows = false ->
  exists w1 w2,
    add_to_sheet self details w = (Ok (true, added_message), w1)
    /\ remove_from_sheet self company_name w1
       = (Ok (true, removed_message 1 company_name), w2)
    /\ grid w2 = grid w.
Proof.
  intros Hconf Hcalm Hgrid Hu Htexts Hplain Hname Hnone.
  assert (Habsent : existsb (company_is (Company_Name details))
                            (all_records (grid w)) = false).
  { rewrite (company_of_rows company_name _ _ Hname), Hgrid. exact Hnone. }
  assert (Hfresh : existsb (is_duplicate details) (all_records (grid w))
                   = false).
  { destruct (existsb (is_duplicate details) (all_records (grid w))) eqn:E;
      [|reflexivity].
    apply existsb_exists in E as [r [Hin Hd]].
    apply (duplicate_has_company (Company_Name details)) in Hd;
      [|reflexivity].
    assert (T : existsb (company_is (Company_Name details))
                        (all_records (grid w)) = true)
      by (apply existsb_exists; now exists r).
    congruence. }
  pose proof (add_to_sheet_calm self details w Hconf Hcalm) as Ea.
  rewrite Hfresh in Ea. cbv zeta in Ea.
  rewrite Ea;
    [| rewrite Hgrid; reflexivity | exact Hu
     | now apply absent_company_safe ].
  set (w1 := set_grid _ _).
  assert (C1 : calm w1 = true) by now apply calm_after_add.
  assert (G1 : grid w1 = expected_headers :: rows ++ [row_of details])
    by (unfold w1; cbn [grid set_grid]; now rewrite Hgrid).
  assert (Hu1 : unique (keys_of (grid w1)) = true).
  { unfold w1. cbn [grid set_grid]. rewrite Hgrid.
    rewrite keys_of_app by (simpl; lia). now rewrite <- Hgrid. }
  assert (Htexts1 : company_texts (all_records (grid w1)) = true).
  { rewrite company_texts_keys in *. rewrite G1. rewrite Hgrid in Htexts.
    cbn [hd tl] in *. rewrite forallb_app, Htexts. cbn [forallb].
    destruct (record_of_written details Hplain) as [p [a ->]].
    reflexivity. }
  destruct (remove_from_sheet_calm self company_name w1 Hconf C1 Hu1 Htexts1)
    as [w2 [Er [Gr _]]].
  rewrite G1 in Er, Gr. cbn [hd tl firstn app] in Er, Gr.
  rewrite filter_app in Er, Gr. cbn [filter] in Er, Gr.
  rewrite (row_is_written _ _ Hplain), Hname, str_eqb_refl in Er, Gr.
  rewrite (filter_none _ _ Hnone) in Er.
  rewrite (filter_keeps_all _ _ Hnone) in Gr.
  cbn [negb app length Nat.ltb Nat.leb] in Er, Gr.
  exists w1, w2. split; [reflexivity|]. split; [exact Er|].
  rewrite Gr, Hgrid. now rewrite app_nil_r.
Qed.

Lemma add_then_remove_witness :
  exists w1 w2,
    add_to_sheet ready google (world_of [expected_headers; row_of meta])
    = (Ok (true, added_message), w1)
    /\ remove_from_sheet ready (py "GOOGLE") w1
       = (Ok (true, removed_message 1 (py "GOOGLE")), w2)
    /\ grid w2 = [expected_headers; row_of meta].
Proof.
  apply (add_then_remove ready google (py "GOOGLE")
                         (world_of [expected_headers; row_of meta])
                         [row_of meta]); reflexivity.
Defined.

Lemma dedup_key_eqb (d1 d2 : Details) :
  str_eqb (lower (Company_Name d1)) (lower (Company_Name d2))
  && str_eqb (lower (Role d1)) (lower (Role d2))
  && str_eqb (Date d1) (Date d2) = true
  <-> dedup_key d1 = dedup_key d2.
Proof.
  unfold dedup_key. rewrite !andb_true_iff, !str_eqb_eq. split.
  - intros [[-> ->] ->]. reflexivity.
  - intros H. injection H as -> -> ->. auto.
Qed.

(** X12. The duplicate test reads back what add wrote. On a configured
    tracker with a calm worksheet and the expected row 1, where the keys of
    the sheet (row 1, with the empty name for a column that only data rows
    reach) are pairwise distinct and no Company Name or Role cell reads as a
    number, after a first record whose company, role and date do not read as
    numbers was added, a second record is added too exactly when it is no
    duplicate of an older row and its key (company and role in lower case,
    date as written) differs from the key of the first. *)
Theorem add_after_add (self : JobTracker) (d1 d2 : Details) (w : World)
        (rows : list (list str)) :
  unconfigured self = false -> calm w = true ->
  grid w = expected_headers :: rows ->
  unique (keys_of (grid w)) = true ->
  key_texts (all_records (grid w)) = true ->
  plain d1 = true ->
  existsb (is_duplicate d1) (all_records (grid w)) = false ->
  exists w1,
    add_to_sheet self d1 w = (Ok (true, added_message), w1)
    /\ ((exists w2,
            add_to_sheet self d2 w1 = (Ok (true, added_message), w2))
        <-> existsb (is_duplicate d2) (all_records (grid w)) = false
            /\ dedup_key d2 <> dedup_key d1).
Proof.
  intros Hconf Hcalm Hgrid Hu Htexts Hplain Hfresh.
  assert (Hhd : hd [] (grid w) = expected_headers) by now rewrite Hgrid.
  pose proof (add_to_sheet_calm self d1 w Hconf Hcalm) as Ea.
  rewrite Hfresh in Ea. cbv zeta in Ea.
  rewrite Ea;
    [| rewrite Hgrid; reflexivity | exact Hu | now apply key_texts_safe ].
  set (w1 := set_grid _ _).
  assert (C1 : calm w1 = true) by now apply calm_after_add.
  assert (G1 : grid w1 = grid w ++ [row_of d1]) by reflexivity.
  assert (Hkeys : keys_of (grid w1) = keys_of (grid w))
    by (rewrite G1, Hgrid; apply keys_of_app; simpl; lia).
  assert (Hrec : all_records (grid w1)
                 = all_records (grid w)
                   ++ [record_of (keys_of (grid w)) (row_of d1)])
    by (rewrite G1, Hgrid; apply all_records_app; simpl; lia).
  assert (Htexts1 : key_texts (all_records (grid w1)) = true).
  { rewrite Hrec. unfold key_texts in *. rewrite forallb_app, Htexts.
    cbn [forallb].
    destruct (written_row_texts d1 (grid w) Hhd Hplain) as [-> ->].
    reflexivity. }
  exists w1. split; [reflexivity|].
  rewrite (add_to_sheet_calm self d2 w1 Hconf C1);
    [| rewrite G1, Hgrid; reflexivity | now rewrite Hkeys
     | now apply key_texts_safe ].
  cbv zeta. rewrite Hrec, existsb_app. cbn [existsb].
  rewrite orb_false_r, (is_duplicate_row d1 d2 (grid w) Hhd Hplain).
  destruct (existsb (is_duplicate d2) (all_records (grid w))); cbn [orb].
  - split; [intros [w2 H]; discriminate | intros [H _]; discriminate].
  - destruct (str_eqb (lower (Company_Name d1)) (lower (Company_Name d2))
              && str_eqb (lower (Role d1)) (lower (Role d2))
              && str_eqb (Date d1) (Date d2)) eqn:K.
    + apply dedup_key_eqb in K. split; [intros [w2 H]; discriminate|].
      intros [_ H]. now destruct H.
    + split; [|intros _; eexists; reflexivity].
      intros _. split; [reflexivity|]. intros H.
      symmetry in H. apply dedup_key_eqb in H. congruence.
Qed.

Lemma add_after_add_witness :
  exists w1,
    add_to_sheet ready google (world_of [expected_headers])
    = (Ok (true, added_message), w1)
    /\ ((exists w2, add_to_sheet ready meta w1
                    = (Ok (true, added_message), w2))
        <-> existsb (is_duplicate meta)
                    (all_records (grid (world_of [expected_headers])))
            = false
            /\ dedup_key meta <> dedup_key google).
Proof.
  apply (add_after_add ready google meta (world_of [expected_headers]) []);
    reflexivity.
Defined.

(** ** Turns that do not reach the worksheet *)

Lemma still_ret {A} (a : A) : still (ret a).
Proof. intros w. reflexivity. Qed.

Lemma still_raise {A} (e : exn) : still (@raise A e).
Proof. intros w. reflexivity. Qed.

Lemma still_bind {A B} (m : M A) (k : A -> M B) :
  still m -> (forall a, still (k a)) -> still (bind m k).
Proof.
  intros Hm Hk w. unfold bind. specialize (Hm w).
  destruct (m w) as [[a|e] w']; simpl in *; [|exact Hm].
  subst w'. apply Hk.
Qed.

Lemma still_try {A} (body : M A) (catches : exn -> bool)
      (handler : exn -> M A) :
  still body -> (forall e, still (handler e)) ->
  still (try_except body catches handler).
Proof.
  intros Hb Hh w. unfold try_except. specialize (Hb w).
  destruct (body w) as [[a|e] w']; simpl in *; [exact Hb|].
  subst w'. destruct (catches e); [apply Hh | reflexivity].
Qed.

Lemma still_generate (env : Env) (prompt : str) : still (generate env prompt).
Proof. intros w. reflexivity. Qed.

Lemma still_loads (env : Env) (s : str) : still (loads env s).
Proof. intros w. unfold loads. now destruct (json_loads env s). Qed.

Lemma still_get (v : json) (key : string) (default : json) :
  still (get v key default).
Proof. intros w. now destruct v. Qed.

Lemma still_strip_of (v : json) : still (strip_of v).
Proof. intros w. now destruct v. Qed.

Ltac still_step :=
  first
    [ apply still_ret | apply still_raise | apply still_generate
    | apply still_loads | apply still_get | apply still_strip_of
    | apply still_bind; [|intros]
    | apply still_try; [|intros]
    | match goal with
      | |- still (if ?b then _ else _) => destruct b
      | |- still (match ?x with _ => _ end) => destruct x
      end ].

Lemma still_extract_job_details (env : Env) (self : JobTracker) (text : str)
      (history : list Message) :
  still (extract_job_details env self text history).
Proof. unfold extract_job_details. repeat still_step. Qed.

Lemma still_get_ai_response (env : Env) (self : JobTracker) (prompt : str)
      (history : list Message) :
  still (get_ai_response env self prompt history).
Proof. unfold get_ai_response. repeat still_step. Qed.

Lemma run_still {A} (m : M A) (w : World) :
  total m -> still m -> exists a, m w = (Ok a, w).
Proof.
  intros Ht Hs. destruct (Ht w) as [a Ha]. specialize (Hs w).
  destruct (m w) as [o w']. simpl in *. subst. now exists a.
Qed.

(** X13. A turn reaches the worksheet only for a removal request or for an
    application with a valid extraction, and only on a configured tracker.
    When the tracker has no sheet, when the message is conversation, or when
    it is an application whose extraction is not valid, the turn makes no
    worksheet call: sheet, call log and schedule are as before. *)
Theorem turn_without_sheet (env : Env) (job_tracker : JobTracker)
        (prompt : str) (w : World) :
  unconfigured job_tracker = true
  \/ is_job_application prompt = Conversation
  \/ (is_job_application prompt = Application
      /\ exists details msg,
          fst (extract_job_details env job_tracker prompt
                                   (messages w ++ [user prompt])
                                   (said (user prompt) w))
          = Ok (details, false, msg)) ->
  exists w',
    turn env job_tracker prompt w = (Ok tt, w')
    /\ grid w' = grid w /\ calls w' = calls w /\ outages w' = outages w.
Proof.
  intros H. unfold turn, bind at 1. cbn [append_message].
  set (w0 := said (user prompt) w).
  assert (Done : forall m,
             exists w',
               append_message m w0 = (Ok tt, w')
               /\ grid w' = grid w /\ calls w' = calls w
               /\ outages w' = outages w)
    by (intros m; eexists; repeat split).
  destruct (run_still (extract_job_details env job_tracker prompt
                                           (messages w0)) w0
                      (total_extract_job_details _ _ _ _)
                      (still_extract_job_details _ _ _ _))
    as [[[details is_valid] msg] Ee].
  destruct (run_still (get_ai_response env job_tracker prompt (messages w0))
                      w0 (total_get_ai_response _ _ _ _)
                      (still_get_ai_response _ _ _ _))
    as [response Eg].
  destruct (is_job_application prompt) eqn:Ec.
  - destruct H as [Hu | [Hc | [Hc _]]]; try discriminate.
    destruct (re_search remove_flags remove_pattern prompt) as [g|];
      [|apply Done].
    unfold bind, remove_from_sheet. rewrite Hu. cbn [ret]. apply Done.
  - unfold bind at 1. cbn [get_messages]. unfold bind at 1. rewrite Ee.
    destruct is_valid; [|apply Done].
    destruct H as [Hu | [Hc | [_ [d [m Hx]]]]]; try discriminate.
    + unfold bind, add_to_sheet. rewrite Hu. cbn [ret]. apply Done.
    + change (messages w ++ [user prompt]) with (messages w0) in Hx.
      change (said (user prompt) w) with w0 in Hx.
      rewrite Ee in Hx. discriminate.
  - unfold bind at 1. cbn [get_messages]. unfold bind. rewrite Eg.
    apply Done.
Qed.

Lemma turn_without_sheet_witness :
  exists w',
    turn (sample_env plain_response) ready (py "hello there")
         (world_of [expected_headers; row_of meta])
    = (Ok tt, w')
    /\ grid w' = [expected_headers; row_of meta]
    /\ calls w' = [] /\ outages w' = [].
Proof.
  apply (turn_without_sheet (sample_env plain_response) ready
                            (py "hello there")
                            (world_of [expected_headers; row_of meta])).
  right. left. reflexivity.
Defined.

(** ** Service setup *)

(** X14. After the construction of the tracker, whatever the secrets and
    the services do: the tracker is marked as having its sheet exactly when
    it holds one, so the guard of add and remove is the flag alone, and the
    two entries of the status shown to the user are the two flags. *)
Theorem new_tracker_consistent (sv : Services) :
  let s := new_tracker sv in
  (sheets_configured (tracker s) = true <-> sheet (tracker s) = Some sheet1)
  /\ unconfigured (tracker s) = negb (sheets_configured (tracker s))
  /\ status_gemini s = gemini_configured (tracker s)
  /\ status_sheets s = sheets_configured (tracker s).
Proof.
  unfold new_tracker, setup_services, setup_gemini, setup_sheets.
  destruct (secret_of sv "GEMINI_API_KEY") as [k|[m|m]];
    [destruct (truthy k); [destruct (configure sv k) as [[m|m]|]|]| |];
    cbn [fst snd];
    try (cbn; repeat split; congruence);
    (destruct (secret_of sv "GOOGLE_CREDENTIALS") as [c|[m1|m1]];
     [destruct (secret_of sv "GOOGLE_SHEET_ID") as [i|[m2|m2]];
      [destruct (truthy c && truthy i);
       [destruct (open_sheet sv c i)|]| |]| |]);
    cbn; repeat split; congruence.
Qed.

(** X15. Setup reports what it could not set up: no message is given to
    [st.error] exactly when both services are configured, and at most two
    messages are given. *)
Theorem new_tracker_reports (sv : Services) :
  let s := new_tracker sv in
  (errors s = []
   <-> gemini_configured (tracker s) = true
       /\ sheets_configured (tracker s) = true)
  /\ length (errors s) <= 2.
Proof.
  unfold new_tracker, setup_services, setup_gemini, setup_sheets.
  destruct (secret_of sv "GEMINI_API_KEY") as [k|[m|m]];
    [destruct (truthy k); [destruct (configure sv k) as [[m|m]|]|]| |];
    cbn [fst snd];
    try (cbn; split; [split; [discriminate | intros []; discriminate] | lia]);
    (destruct (secret_of sv "GOOGLE_CREDENTIALS") as [c|[m1|m1]];
     [destruct (secret_of sv "GOOGLE_SHEET_ID") as [i|[m2|m2]];
      [destruct (truthy c && truthy i);
       [destruct (open_sheet sv c i)|]| |]| |]);
    cbn; (split; [split; [try discriminate; auto
                         | intros []; try discriminate; auto] | lia]).
Qed.

(** X16. What makes each service configured. Gemini is configured exactly
    when its key is found, is not empty and [configure] returns. The sheet
    is configured exactly when both of its secrets are found and not empty,
    the sheet opens, and the Gemini step did not end with an exception other
    than a [KeyError]: such an exception ends the whole setup before the
    sheet is tried, while a missing Gemini key does not. *)
Theorem new_tracker_flags (sv : Services) :
  let s := new_tracker sv in
  (gemini_configured (tracker s) = true
   <-> exists key,
        secret_of sv "GEMINI_API_KEY" = Found key
        /\ truthy key = true /\ configure sv key = None)
  /\ (sheets_configured (tracker s) = true
      <-> gemini_step_breaks sv = false
          /\ exists creds id,
              secret_of sv "GOOGLE_CREDENTIALS" = Found creds
              /\ secret_of sv "GOOGLE_SHEET_ID" = Found id
              /\ truthy creds = true /\ truthy id = true
              /\ open_sheet sv creds id = None).
Proof.
  unfold new_tracker, setup_services, setup_gemini, setup_sheets,
    gemini_step_breaks.
  assert (G : forall key : secret,
             (exists k, Found key = Found k /\ truthy k = true
                        /\ configure sv k = None)
             <-> truthy key = true /\ configure sv key = None).
  { intros key. split; [intros [k [E H]]; now injection E as -> | eauto]. }
  assert (S : forall c i : secret,
             (exists creds id,
                 Found c = Found creds /\ Found i = Found id
                 /\ truthy creds = true /\ truthy id = true
                 /\ open_sheet sv creds id = None)
             <-> truthy c = true /\ truthy i = true
                 /\ open_sheet sv c i = None).
  { intros c i. split; [|eauto 10].
    intros [creds [id [E1 [E2 H]]]]. injection E1 as ->.
    now injection E2 as ->. }
  assert (N1 : forall (f : failure) (P : secret -> Prop),
             ~ exists k, Fails f = Found k /\ P k)
    by (intros f P [k [E _]]; discriminate).
  assert (N2 : forall (f : failure) (l : lookup)
                      (P : secret -> secret -> Prop),
             ~ exists c i, Fails f = Found c /\ P c i)
    by (intros f l P [c [i [E _]]]; discriminate).
  assert (N3 : forall (c0 : secret) (f : failure)
                      (P : secret -> secret -> Prop),
             ~ exists c i, Found c0 = Found c /\ Fails f = Found i /\ P c i)
    by (intros c0 f P [c [i [_ [E _]]]]; discriminate).
  destruct (secret_of sv "GEMINI_API_KEY") as [k|[m|m]];
    [rewrite G; destruct (truthy k) eqn:Tk;
     [destruct (configure sv k) as [[m|m]|] eqn:Ck|]| |];
    cbn [fst snd andb];
    (destruct (secret_of sv "GOOGLE_CREDENTIALS") as [c|[m1|m1]];
     [destruct (secret_of sv "GOOGLE_SHEET_ID") as [i|[m2|m2]];
      [rewrite S; destruct (truthy c) eqn:Tc; destruct (truthy i) eqn:Ti;
       cbn [andb]; destruct (open_sheet sv c i) eqn:Os| |]| |]);
    cbn; (split; split);
    try discriminate; try tauto; try (intros []; discriminate);
    try (intros [_ H]; discriminate);
    try (intros [_ [_ H]]; discriminate);
    try (intros [_ [H _]]; discriminate);
    try (intros [_ H]; exfalso; revert H;
         first [apply (N2 _ (Fails (KeyFailure m1))) | apply N3]);
    try (intros H; exfalso; revert H; apply N1);
    try (intros [_ [_ [_ H]]]; discriminate).
Qed.

(** ** An application, from the message to the sheet *)

(** X17. The turn of an application whose extraction is valid, on a
    configured tracker with a calm worksheet, the expected row 1, pairwise
    distinct keys (row 1, with the empty name for a column that only data
    rows reach) and no Company Name or Role cell that reads as a number:
    when no row is a duplicate of the record, the sheet gains exactly the
    row company, role, date, platform, status and the reply confirms and
    carries the record; when a row is a duplicate, the sheet is unchanged
    and the reply reports that the application already exists, without
    record. *)
Theorem application_turn (env : Env) (job_tracker : JobTracker)
        (prompt : str) (w : World) (rows : list (list str))
        (details : Details) (msg : str) :
  is_job_application prompt = Application ->
  unconfigured job_tracker = false -> calm w = true ->
  grid w = expected_headers :: rows ->
  unique (keys_of (grid w)) = true ->
  key_texts (all_records (grid w)) = true ->
  fst (extract_job_details env job_tracker prompt
                           (messages w ++ [user prompt])
                           (said (user prompt) w))
  = Ok (details, true, msg) ->
  exists w',
    turn env job_tracker prompt w = (Ok tt, w')
    /\ if existsb (is_duplicate details) (all_records (grid w)) then
         grid w' = grid w
         /\ messages w'
            = messages w
                ++ [user prompt;
                    assistant
                      (not_saved (py "This job application already exists"))
                      None]
       else
         grid w' = grid w ++ [row_of details]
         /\ messages w'
            = messages w
                ++ [user prompt;
                    assistant (recorded added_message) (Some details)].
Proof.
  intros Happ Hconf Hcalm Hgrid Hu Htexts Hext.
  set (w0 := said (user prompt) w) in *.
  change (messages w ++ [user prompt]) with (messages w0) in Hext.
  destruct (run_still (extract_job_details env job_tracker prompt
                                           (messages w0)) w0
                      (total_extract_job_details _ _ _ _)
                      (still_extract_job_details _ _ _ _))
    as [r Ee].
  rewrite Ee in Hext. cbn [fst] in Hext. injection Hext as ->.
  assert (C0 : calm w0 = true) by exact Hcalm.
  pose proof (add_to_sheet_calm job_tracker details w0 Hconf C0) as Ea.
  change (grid w0) with (grid w) in Ea. cbv zeta in Ea.
  unfold turn, bind at 1. cbn [append_message]. fold w0. rewrite Happ.
  unfold bind at 1. cbn [get_messages]. unfold bind at 1. rewrite Ee.
  unfold bind.
  rewrite Ea;
    [| rewrite Hgrid; reflexivity | exact Hu | now apply key_texts_safe ].
  destruct (existsb (is_duplicate details) (all_records (grid w))).
  - eexists. split; [reflexivity|]. split; [reflexivity|].
    cbn [messages said logged w0]. now rewrite <- app_assoc.
  - eexists. split; [reflexivity|]. split; [reflexivity|].
    cbn [messages said logged set_grid w0]. now rewrite <- app_assoc.
Qed.

Lemma application_turn_witness :
  exists w',
    turn (sample_env google_response) ready sample_text
         (world_of [expected_headers; row_of meta])
    = (Ok tt, w')
    /\ grid w' = [expected_headers; row_of meta; row_of google]
    /\ messages w'
       = [user sample_text; assistant (recorded added_message) (Some google)].
Proof.
  apply (application_turn (sample_env google_response) ready sample_text
                          (world_of [expected_headers; row_of meta])
                          [row_of meta] google
                          (py "Successfully extracted details"));
    reflexivity.
Defined.
